(** * CPIC download stage: a shallow embedding of [stages/01_download_build.py]

    The stage fetches seven CPIC endpoints, turns each decoded JSON array
    into a pandas frame, standardises the column names, flattens nested
    cells to JSON text and writes one parquet file per endpoint, followed
    by two summary blocks and a read-back report.

    Conventions of the embedding.
    - A Python [str] is a [string] whose characters are the code points
      below 256; [str.strip], [str.lower] and [str.replace] are written
      out on that range.
    - A decoded JSON value is a [pyval]; JSON numbers are the integers.
      Binary floating point numbers are outside the embedding; the one
      float pandas introduces itself, the missing-value marker, is the
      cell [NaN].
    - A pandas frame is its row count together with the ordered list of
      labelled columns; labels may repeat, as pandas allows.
    - The network, the file system and the parquet encoder are the
      [World] the stage runs in; a file's content is the frame that
      [pd.read_parquet] gives back for it. *)

From Stdlib Require Import ZArith NArith String Ascii List Bool Lia.
From Stdlib Require Import DecimalString DecimalN DecimalPos DecimalZ DecimalFacts.
From Stdlib Require Import Sorted.
From stdpp Require Import gmap strings list fin_maps.

Local Open Scope string_scope.

(** ** Python strings *)

Module PyStr.

(** [str.isspace] on one character: TAB..CR, FS..US, SPACE, NEL, NBSP. *)
Definition isspace (c : ascii) : bool :=
  let n := N_of_ascii c in
  ((9 <=? n) && (n <=? 13) || (28 <=? n) && (n <=? 32)
   || (n =? 133) || (n =? 160))%N.

(** Characters that [str.lower] changes: A-Z and the capital letters of
    the Latin-1 block (all of U+00C0..U+00DE but the multiplication sign). *)
Definition isupper (c : ascii) : bool :=
  let n := N_of_ascii c in
  ((65 <=? n) && (n <=? 90) || (192 <=? n) && (n <=? 214)
   || (216 <=? n) && (n <=? 222))%N.

Definition lower_char (c : ascii) : ascii :=
  if isupper c then ascii_of_N (N_of_ascii c + 32) else c.

Fixpoint smap (f : ascii -> ascii) (s : string) : string :=
  match s with
  | EmptyString => EmptyString
  | String c r => String (f c) (smap f r)
  end.

(** [s.lower()] *)
Definition lower (s : string) : string := smap lower_char s.

(** [s.replace(old, new)] for one-character [old] and [new]. *)
Definition replace (old new : ascii) (s : string) : string :=
  smap (fun c => if Ascii.eqb c old then new else c) s.

Fixpoint lstrip (s : string) : string :=
  match s with
  | EmptyString => EmptyString
  | String c r => if isspace c then lstrip r else s
  end.

Fixpoint rstrip (s : string) : string :=
  match s with
  | EmptyString => EmptyString
  | String c r =>
      match rstrip r with
      | EmptyString => if isspace c then EmptyString else String c EmptyString
      | r' => String c r'
      end
  end.

(** [s.strip()] *)
Definition strip (s : string) : string := rstrip (lstrip s).

(** [c in s] for a character. *)
Fixpoint contains (c : ascii) (s : string) : bool :=
  match s with
  | EmptyString => false
  | String a r => Ascii.eqb a c || contains c r
  end.

Fixpoint sexists (p : ascii -> bool) (s : string) : bool :=
  match s with
  | EmptyString => false
  | String a r => p a || sexists p r
  end.

Fixpoint sforall (p : ascii -> bool) (s : string) : bool :=
  match s with
  | EmptyString => true
  | String a r => p a && sforall p r
  end.

(** [s[0]] and [s[-1]], where they exist. *)
Definition first_char (s : string) : option ascii :=
  match s with
  | EmptyString => None
  | String a _ => Some a
  end.

Fixpoint last_char (s : string) : option ascii :=
  match s with
  | EmptyString => None
  | String a r =>
      match last_char r with
      | Some b => Some b
      | None => Some a
      end
  end.

End PyStr.

(** ** Decoded JSON values and pandas cells *)

#[warnings="-register-all"]
Inductive pyval : Type :=
| PNone
| PBool (b : bool)
| PInt (z : Z)
| PStr (s : string)
| PList (l : list pyval)
| PDict (d : list (string * pyval)).

(** One decoded JSON object: a [dict] in insertion order. *)
Abbreviation record := (list (string * pyval)).

(** A cell of a frame: the Python object put there, or the float [nan]
    pandas fills in where a record lacks the key. *)
Inductive cell : Type :=
| NaN
| Obj (v : pyval).

Abbreviation Series := (list cell).

(** [isinstance(x, dict)] and [isinstance(x, list)] on a cell. *)
Definition is_dict (x : cell) : bool :=
  match x with Obj (PDict _) => true | _ => false end.

Definition is_list (x : cell) : bool :=
  match x with Obj (PList _) => true | _ => false end.

(** [pd.isna] on a cell: [None] and [nan]. *)
Definition isna (x : cell) : bool :=
  match x with NaN | Obj PNone => true | _ => false end.

(** ** The standardised column name (line 66) *)

(** [str(c).strip().lower().replace(' ', '_').replace('-', '_')] *)
Definition std_name (c : string) : string :=
  PyStr.replace "-" "_" (PyStr.replace " " "_" (PyStr.lower (PyStr.strip c))).

(** ** [json.dumps] with its default arguments

    [ensure_ascii=True], separators [", "] and [": "], no indentation,
    keys in insertion order. *)

Module Json.

Definition dquote : ascii := Eval cbv in ascii_of_N 34.
Definition backslash : ascii := Eval cbv in ascii_of_N 92.

Definition hex_digit (n : N) : ascii :=
  if (n <? 10)%N then ascii_of_N (48 + n) else ascii_of_N (87 + n).

(** One character under [ESCAPE_ASCII] / [ESCAPE_DCT]. *)
Definition escape_char (c : ascii) : string :=
  let n := N_of_ascii c in
  if Ascii.eqb c dquote then String backslash (String dquote EmptyString)
  else if Ascii.eqb c backslash then String backslash (String backslash EmptyString)
  else if (n =? 8)%N then String backslash "b"
  else if (n =? 12)%N then String backslash "f"
  else if (n =? 10)%N then String backslash "n"
  else if (n =? 13)%N then String backslash "r"
  else if (n =? 9)%N then String backslash "t"
  else if ((32 <=? n) && (n <=? 126))%N then String c EmptyString
  else String backslash
         (String "u" (String "0" (String "0"
           (String (hex_digit (n / 16)) (String (hex_digit (n mod 16)) EmptyString))))).

Fixpoint escape (s : string) : string :=
  match s with
  | EmptyString => EmptyString
  | String c r => escape_char c ++ escape r
  end.

(** [encode_basestring_ascii] *)
Definition encode_string (s : string) : string :=
  String dquote (escape s ++ String dquote EmptyString).

(** [int.__repr__] *)
Definition repr_int (z : Z) : string := NilZero.string_of_int (Z.to_int z).

(** [sep.join(items)] *)
Fixpoint join (sep : string) (items : list string) : string :=
  match items with
  | [] => EmptyString
  | [x] => x
  | x :: r => x ++ sep ++ join sep r
  end.

Fixpoint dumps (v : pyval) : string :=
  match v with
  | PNone => "null"
  | PBool true => "true"
  | PBool false => "false"
  | PInt z => repr_int z
  | PStr s => encode_string s
  | PList l => "[" ++ join ", " (List.map dumps l) ++ "]"
  | PDict d =>
      "{" ++ join ", "
               (List.map (fun kv => encode_string (fst kv) ++ ": " ++ dumps (snd kv)) d)
          ++ "}"
  end.

(** [json.dumps] applied to a cell; the float [nan] prints as [NaN]
    ([allow_nan=True]). *)
Definition dumps_cell (x : cell) : string :=
  match x with
  | NaN => "NaN"
  | Obj v => dumps v
  end.

(** ** [json.loads]

    The decoder of the standard library: [scanstring], the number
    pattern, [JSONArray], [JSONObject] and [scan_once].  The recursion
    of [scan_once] is bounded by a counter that [loads] sets from the
    length of the text.  A number with a fraction or an exponent and an
    escape above U+00FF denote values outside the embedding and give
    [None], as does every text the decoder rejects. *)

(** [WHITESPACE]: space, TAB, LF, CR. *)
Definition is_ws (c : ascii) : bool :=
  let n := N_of_ascii c in
  ((n =? 32) || (n =? 9) || (n =? 10) || (n =? 13))%N.

Fixpoint skip_ws (s : string) : string :=
  match s with
  | EmptyString => EmptyString
  | String c r => if is_ws c then skip_ws r else s
  end.

(** [int(h, 16)] for one character. *)
Definition hex_value (c : ascii) : option N :=
  let n := N_of_ascii c in
  if ((48 <=? n) && (n <=? 57))%N then Some (n - 48)%N
  else if ((97 <=? n) && (n <=? 102))%N then Some (n - 87)%N
  else if ((65 <=? n) && (n <=? 70))%N then Some (n - 55)%N
  else None.

(** [BACKSLASH]: the character a short escape stands for. *)
Definition unescape (e : ascii) : option ascii :=
  if Ascii.eqb e dquote then Some dquote
  else if Ascii.eqb e backslash then Some backslash
  else if Ascii.eqb e "/" then Some "/"%char
  else if Ascii.eqb e "b" then Some (ascii_of_N 8)
  else if Ascii.eqb e "f" then Some (ascii_of_N 12)
  else if Ascii.eqb e "n" then Some (ascii_of_N 10)
  else if Ascii.eqb e "r" then Some (ascii_of_N 13)
  else if Ascii.eqb e "t" then Some (ascii_of_N 9)
  else None.

Definition prepend (c : ascii) (r : option (string * string)) : option (string * string) :=
  match r with
  | Some (s, rest) => Some (String c s, rest)
  | None => None
  end.

(** [scanstring(s, end, strict=True)], entered after the opening quote:
    the decoded string and the text after the closing quote. *)
Fixpoint scanstring (s : string) : option (string * string) :=
  match s with
  | EmptyString => None
  | String c r =>
      if Ascii.eqb c dquote then Some (EmptyString, r)
      else if Ascii.eqb c backslash then
        match r with
        | EmptyString => None
        | String e r1 =>
            if Ascii.eqb e "u" then
              match r1 with
              | String h1 (String h2 (String h3 (String h4 r2))) =>
                  match hex_value h1, hex_value h2, hex_value h3, hex_value h4 with
                  | Some a, Some b, Some c', Some d =>
                      if ((a =? 0) && (b =? 0))%N
                      then prepend (ascii_of_N (16 * c' + d)) (scanstring r2)
                      else None
                  | _, _, _, _ => None
                  end
              | _ => None
              end
            else
              match unescape e with
              | Some c' => prepend c' (scanstring r1)
              | None => None
              end
        end
      else if (N_of_ascii c <? 32)%N then None
      else prepend c (scanstring r)
  end.

Definition digit_cons (c : ascii) : option (Decimal.uint -> Decimal.uint) :=
  match N_of_ascii c with
  | 48%N => Some Decimal.D0
  | 49%N => Some Decimal.D1
  | 50%N => Some Decimal.D2
  | 51%N => Some Decimal.D3
  | 52%N => Some Decimal.D4
  | 53%N => Some Decimal.D5
  | 54%N => Some Decimal.D6
  | 55%N => Some Decimal.D7
  | 56%N => Some Decimal.D8
  | 57%N => Some Decimal.D9
  | _ => None
  end.

(** The longest run of decimal digits at the head of the text. *)
Fixpoint scan_digits (s : string) : Decimal.uint * string :=
  match s with
  | EmptyString => (Decimal.Nil, EmptyString)
  | String c r =>
      match digit_cons c with
      | Some d => let '(u, rest) := scan_digits r in (d u, rest)
      | None => (Decimal.Nil, s)
      end
  end.

(** Does a fraction or an exponent follow the integer part? *)
Definition float_follows (s : string) : bool :=
  match s with
  | String c _ => Ascii.eqb c "." || Ascii.eqb c "e" || Ascii.eqb c "E"
  | EmptyString => false
  end.

(** [NUMBER_RE] restricted to its integer group: an optional minus sign,
    then a single zero or a non-zero digit followed by digits. *)
Definition scan_number (s : string) : option (Z * string) :=
  let '(neg, r) :=
    match s with
    | String c r' => if Ascii.eqb c "-" then (true, r') else (false, s)
    | EmptyString => (false, s)
    end in
  match r with
  | EmptyString => None
  | String c r' =>
      if Ascii.eqb c "0" then
        if float_follows r' then None else Some (0%Z, r')
      else
        match digit_cons c with
        | None => None
        | Some _ =>
            let '(u, rest) := scan_digits r in
            if float_follows rest then None
            else Some (Z.of_int (if neg then Decimal.Neg u else Decimal.Pos u), rest)
        end
  end.

(** [d[k] = v] on an insertion-ordered dict. *)
Fixpoint dict_set (d : list (string * pyval)) (k : string) (v : pyval)
  : list (string * pyval) :=
  match d with
  | [] => [(k, v)]
  | (k', v') :: r =>
      if String.eqb k' k then (k', v) :: r else (k', v') :: dict_set r k v
  end.

(** [dict(pairs)] *)
Definition dict_of_pairs (pairs : list (string * pyval)) : list (string * pyval) :=
  fold_left (fun d kv => dict_set d (fst kv) (snd kv)) pairs [].

(** Strip a literal prefix. *)
Fixpoint expect (lit s : string) : option string :=
  match lit with
  | EmptyString => Some s
  | String a lit' =>
      match s with
      | String b s' => if Ascii.eqb a b then expect lit' s' else None
      | EmptyString => None
      end
  end.

Fixpoint scan_once (fuel : nat) (s : string) : option (pyval * string) :=
  match fuel with
  | O => None
  | S fuel' =>
      match s with
      | EmptyString => None
      | String c r =>
          if Ascii.eqb c dquote then
            match scanstring r with
            | Some (x, rest) => Some (PStr x, rest)
            | None => None
            end
          else if Ascii.eqb c "{" then
            match skip_ws r with
            | String c1 r1 =>
                if Ascii.eqb c1 "}" then Some (PDict [], r1)
                else if Ascii.eqb c1 dquote then
                  match object_items fuel' r1 with
                  | Some (pairs, rest) => Some (PDict (dict_of_pairs pairs), rest)
                  | None => None
                  end
                else None
            | EmptyString => None
            end
          else if Ascii.eqb c "[" then
            match skip_ws r with
            | String c1 r1 =>
                if Ascii.eqb c1 "]" then Some (PList [], r1)
                else
                  match array_items fuel' (String c1 r1) with
                  | Some (vs, rest) => Some (PList vs, rest)
                  | None => None
                  end
            | EmptyString => None
            end
          else if Ascii.eqb c "n" then
            match expect "ull" r with Some rest => Some (PNone, rest) | None => None end
          else if Ascii.eqb c "t" then
            match expect "rue" r with Some rest => Some (PBool true, rest) | None => None end
          else if Ascii.eqb c "f" then
            match expect "alse" r with Some rest => Some (PBool false, rest) | None => None end
          else
            match scan_number s with
            | Some (z, rest) => Some (PInt z, rest)
            | None => None
            end
      end
  end

(** The loop of [JSONArray], entered at the first character of a value. *)
with array_items (fuel : nat) (s : string) : option (list pyval * string) :=
  match fuel with
  | O => None
  | S fuel' =>
      match scan_once fuel' s with
      | None => None
      | Some (v, rest) =>
          match skip_ws rest with
          | String c r =>
              if Ascii.eqb c "]" then Some ([v], r)
              else if Ascii.eqb c "," then
                match array_items fuel' (skip_ws r) with
                | Some (vs, rest') => Some (v :: vs, rest')
                | None => None
                end
              else None
          | EmptyString => None
          end
      end
  end

(** The loop of [JSONObject], entered after the opening quote of a key. *)
with object_items (fuel : nat) (s : string) : option (list (string * pyval) * string) :=
  match fuel with
  | O => None
  | S fuel' =>
      match scanstring s with
      | None => None
      | Some (k, rest) =>
          match skip_ws rest with
          | String c r =>
              if Ascii.eqb c ":" then
                match scan_once fuel' (skip_ws r) with
                | None => None
                | Some (v, rest1) =>
                    match skip_ws rest1 with
                    | String c1 r1 =>
                        if Ascii.eqb c1 "}" then Some ([(k, v)], r1)
                        else if Ascii.eqb c1 "," then
                          match skip_ws r1 with
                          | String c2 r2 =>
                              if Ascii.eqb c2 dquote then
                                match object_items fuel' r2 with
                                | Some (kvs, rest') => Some ((k, v) :: kvs, rest')
                                | None => None
                                end
                              else None
                          | EmptyString => None
                          end
                        else None
                    | EmptyString => None
                    end
                end
              else None
          | EmptyString => None
          end
      end
  end.

(** [json.loads(s)]: one value, surrounded by optional whitespace and
    nothing else. *)
Definition loads (s : string) : option pyval :=
  match scan_once (S (String.length s)) (skip_ws s) with
  | Some (v, rest) =>
      match skip_ws rest with
      | EmptyString => Some v
      | _ => None
      end
  | None => None
  end.

End Json.

(** ** pandas frames *)

(** A frame: the length of its index and its labelled columns, in order.
    Every column holds one cell per row. *)
Record DataFrame : Type := mkDataFrame {
  nrows : nat;
  cols : list (string * Series)
}.

(** [df.columns] *)
Definition columns (df : DataFrame) : list string := List.map fst (cols df).

(** [len(df)] *)
Definition len (df : DataFrame) : nat := nrows df.

Definition mem (k : string) (l : list string) : bool :=
  List.existsb (String.eqb k) l.

(** The keys of all records in order of first appearance, which is the
    column order [pd.DataFrame] gives a list of dicts. *)
Fixpoint add_keys (seen ks : list string) : list string :=
  match ks with
  | [] => seen
  | k :: r => add_keys (if mem k seen then seen else seen ++ [k]) r
  end.

Definition union_keys (data : list record) : list string :=
  fold_left (fun seen r => add_keys seen (List.map fst r)) data [].

(** [r.get(k)] *)
Fixpoint dict_get (r : record) (k : string) : option pyval :=
  match r with
  | [] => None
  | (k', v) :: r' => if String.eqb k' k then Some v else dict_get r' k
  end.

(** [r.get(k, nan)] *)
Definition cell_of (r : record) (k : string) : cell :=
  match dict_get r k with
  | Some v => Obj v
  | None => NaN
  end.

(** [pd.DataFrame(data)] for a list of dicts. *)
Definition pd_DataFrame (data : list record) : DataFrame :=
  {| nrows := length data;
     cols := List.map (fun k => (k, List.map (fun r => cell_of r k) data))
                      (union_keys data) |}.

(** Line 66: [df.columns = [... for c in df.columns]]. *)
Definition standardize_columns (df : DataFrame) : DataFrame :=
  {| nrows := nrows df;
     cols := List.map (fun p => (std_name (fst p), snd p)) (cols df) |}.

(** [df[col]] for one label: a missing label raises [KeyError], a label
    carried by one column gives that Series, a repeated label gives the
    sub-frame of all columns that carry it. *)
Inductive item : Type :=
| NoColumn
| OneSeries (s : Series)
| SubFrame (ss : list Series).

Definition labelled (col : string) (p : string * Series) : bool :=
  String.eqb (fst p) col.

Definition getitem (df : DataFrame) (col : string) : item :=
  match List.filter (labelled col) (cols df) with
  | [] => NoColumn
  | [p] => OneSeries (snd p)
  | ps => SubFrame (List.map snd ps)
  end.

(** [df[col] = s] for a label carried by one column. *)
Definition setitem (df : DataFrame) (col : string) (s : Series) : DataFrame :=
  {| nrows := nrows df;
     cols := List.map (fun p => if labelled col p then (fst p, s) else p) (cols df) |}.

(** [df[col] = df[col].apply(f)].  Under a repeated label [df[col]] is a
    frame, [apply] hands [f] whole columns, which the two lambdas of this
    program return as they are, and the assignment stores them back. *)
Definition apply_column (f : cell -> cell) (df : DataFrame) (col : string) : DataFrame :=
  match getitem df col with
  | OneSeries s => setitem df col (List.map f s)
  | _ => df
  end.

Definition flatten_dict_column (df : DataFrame) (col : string) : DataFrame :=
  if mem col (columns df)
  then apply_column (fun x => if is_dict x then Obj (PStr (Json.dumps_cell x)) else x) df col
  else df.

Definition flatten_list_column (df : DataFrame) (col : string) : DataFrame :=
  if mem col (columns df)
  then apply_column (fun x => if is_list x then Obj (PStr (Json.dumps_cell x)) else x) df col
  else df.

(** [s.dropna()] *)
Definition dropna (s : Series) : Series := List.filter (fun x => negb (isna x)) s.

Definition is_bool (x : cell) : bool :=
  match x with Obj (PBool _) => true | _ => false end.

Definition is_number (x : cell) : bool :=
  match x with Obj (PInt _) | NaN => true | _ => false end.

Definition is_boxed (x : cell) : bool :=
  match x with Obj (PStr _) | Obj (PList _) | Obj (PDict _) => true | _ => false end.

(** [s.dtype == 'object'] as NumPy infers the column of a frame built
    from dicts: a string, list or dict forces [object]; booleans stay
    [bool] only on their own; integers, with [None] and [nan] read as
    missing, become a numeric column; a column of [None] alone is
    [object].  The flattening below depends on one fact only, that a
    column holding a dict or a list is an [object] column. *)
Definition dtype_is_object (s : Series) : bool :=
  if List.existsb is_boxed s then true
  else if List.existsb is_bool s then negb (List.forallb is_bool s)
  else negb (List.existsb is_number s).

(** ** Exceptions *)

Inductive exn : Type :=
| HTTPError
| KeyError
| AttributeError
| ArrowError
| OSError.

Inductive result (A : Type) : Type :=
| Ok (a : A)
| Raise (e : exn).

Arguments Ok {A} a.
Arguments Raise {A} e.

(** ** The normalizer (lines 63-76) *)

(** The body of [for col in df.columns]. [df[col].dtype] exists on a
    Series only: on the sub-frame of a repeated label the attribute
    lookup raises. *)
Definition inspect_column (df : DataFrame) (col : string) : result DataFrame :=
  match getitem df col with
  | NoColumn => Raise KeyError
  | SubFrame _ => Raise AttributeError
  | OneSeries s =>
      if dtype_is_object s then
        match dropna s with
        | [] => Ok df
        | sample :: _ =>
            if is_dict sample then Ok (flatten_dict_column df col)
            else if is_list sample then Ok (flatten_list_column df col)
            else Ok df
        end
      else Ok df
  end.

Fixpoint flatten_columns (names : list string) (df : DataFrame) : result DataFrame :=
  match names with
  | [] => Ok df
  | col :: rest =>
      match inspect_column df col with
      | Ok df' => flatten_columns rest df'
      | Raise e => Raise e
      end
  end.

Definition normalize (data : list record) : result DataFrame :=
  let df := standardize_columns (pd_DataFrame data) in
  flatten_columns (columns df) df.

(** ** The stage and its surroundings *)

(** What the stage cannot decide itself: whether [brick] can be made a
    directory ([FileExistsError] where the name is taken by a file,
    [PermissionError] and the like), the answer of the CPIC server to
    [GET BASE_URL/endpoint] (the decoded array, or the exception of
    [requests.get] / [raise_for_status]), whether the parquet encoder
    accepts a frame for a path, and whether a file can be read back. *)
Record World : Type := mkWorld {
  mkdir_error : option exn;
  http_get : string -> result (list record);
  parquet_ok : string -> DataFrame -> bool;
  read_ok : string -> bool
}.

(** The lines the stage prints.  A [Banner] is a title between two rules
    of sixty [=] signs; the other events are the formatted lines, with the
    values they interpolate. *)
Inductive event : Type :=
| Banner (title : string)
| Fetching (endpoint : string)
| Retrieved (n : nat)
| Saved (n : nat) (path : string)
| ErrorFetching (name : string) (e : exn)
| SavedAlleleSummary (n : nat)
| RecommendationAvailable (n : nat)
| FileLine (path : string) (rows ncols : nat)
| Total (records nfiles : nat).

(** The mutable state of [main]: the dict [dataframes], the parquet files
    of the directory [brick], and the standard output. *)
Record State : Type := mkState {
  dataframes : gmap string DataFrame;
  files : gmap string DataFrame;
  log : list event
}.

(** Statements: state passing with exceptions. *)
Definition M (A : Type) : Type := State -> result A * State.

Definition ret {A} (a : A) : M A := fun st => (Ok a, st).

Definition raise {A} (e : exn) : M A := fun st => (Raise e, st).

Definition bind {A B} (m : M A) (k : A -> M B) : M B :=
  fun st =>
    match m st with
    | (Ok a, st') => k a st'
    | (Raise e, st') => (Raise e, st')
    end.

Notation "x <- m ;; k" := (bind m (fun x => k))
  (at level 60, m at next level, right associativity).
Notation "m ;;; k" := (bind m (fun _ => k))
  (at level 60, right associativity).

(** [try: body  except Exception as e: handler(e)] *)
Definition try_except (body : M unit) (handler : exn -> M unit) : M unit :=
  fun st =>
    match body st with
    | (Ok tt, st') => (Ok tt, st')
    | (Raise e, st') => handler e st'
    end.

Definition lift {A} (r : result A) : M A := fun st => (r, st).

Definition print (e : event) : M unit :=
  fun st => (Ok tt, {| dataframes := dataframes st; files := files st;
                       log := log st ++ [e] |}).

(** [dataframes[name] = df] *)
Definition store (name : string) (df : DataFrame) : M unit :=
  fun st => (Ok tt, {| dataframes := <[name := df]> (dataframes st);
                       files := files st; log := log st |}).

(** What a parquet file keeps of a frame written with [index=False]: the
    columns.  The rows of the file are the cells of its columns, so a
    frame without columns leaves a file without rows, whatever the length
    of its index was. *)
Definition parquet_image (df : DataFrame) : DataFrame :=
  match cols df with
  | [] => {| nrows := 0; cols := [] |}
  | _ :: _ => df
  end.

(** [df.to_parquet(path, index=False)]: the file is replaced by what the
    encoder keeps of the frame, or the encoder raises and the directory
    stays as it is. *)
Definition to_parquet (w : World) (df : DataFrame) (path : string) : M unit :=
  fun st =>
    if parquet_ok w path df
    then (Ok tt, {| dataframes := dataframes st;
                    files := <[path := parquet_image df]> (files st); log := log st |})
    else (Raise ArrowError, st).

(** [brick_path.mkdir(exist_ok=True)] (line 40): it raises, or leaves the
    parquet files of [brick] as they are. *)
Definition mkdir (w : World) : M unit :=
  match mkdir_error w with
  | Some e => raise e
  | None => ret tt
  end.

(** [fetch_endpoint] (lines 17-24) *)
Definition fetch_endpoint (w : World) (endpoint : string) : M (list record) :=
  print (Fetching endpoint) ;;;
  data <- lift (http_get w endpoint) ;;
  print (Retrieved (length data)) ;;;
  ret data.

(** [brick_path / f"cpic_{name}.parquet"], as a name inside [brick]. *)
Definition output_file (name : string) : string := "cpic_" ++ name ++ ".parquet".

Definition summary_file : string := "cpic_allele_functions.parquet".

Definition recommendations_file : string := "cpic_recommendations.parquet".

(** The endpoint table of [main], in insertion order. *)
Definition endpoints : list (string * string) :=
  [("gene", "gene"); ("allele", "allele"); ("drug", "drug");
   ("guideline", "guideline"); ("recommendation", "recommendation");
   ("diplotype", "diplotype"); ("pair", "pair")].

(** The [try] block of one iteration (lines 61-83).  The table is put in
    [dataframes] before it is written. *)
Definition endpoint_body (w : World) (name endpoint : string) : M unit :=
  data <- fetch_endpoint w endpoint ;;
  match data with
  | [] => ret tt
  | _ :: _ =>
      df <- lift (normalize data) ;;
      store name df ;;;
      to_parquet w df (output_file name) ;;;
      print (Saved (len df) (output_file name))
  end.

(** One iteration of the loop (lines 59-85). *)
Definition process_endpoint (w : World) (name endpoint : string) : M unit :=
  try_except (endpoint_body w name endpoint)
             (fun e => print (ErrorFetching name e)).

Fixpoint for_each {A} (l : list A) (body : A -> M unit) : M unit :=
  match l with
  | [] => ret tt
  | x :: r => body x ;;; for_each r body
  end.

Definition fetch_all (w : World) : M unit :=
  for_each endpoints (fun ne => process_endpoint w (fst ne) (snd ne)).

Definition key_cols : list string :=
  ["id"; "genesymbol"; "name"; "functionalstatus";
   "clinicalfunctionalstatus"; "activityvalue"; "strength"].

(** [df[names]] for a list of labels present in the frame: for each
    label in turn, the columns that carry it. *)
Definition getitem_list (df : DataFrame) (names : list string) : DataFrame :=
  {| nrows := nrows df;
     cols := List.flat_map (fun c => List.filter (labelled c) (cols df)) names |}.

(** Lines 88-101. *)
Definition allele_summary (w : World) : M unit :=
  fun st =>
    match dataframes st !! "allele" with
    | None => (Ok tt, st)
    | Some allele_df =>
        (print (Banner "Creating allele function summary...") ;;;
         let available_cols := List.filter (fun c => mem c (columns allele_df)) key_cols in
         let allele_summary := getitem_list allele_df available_cols in
         to_parquet w allele_summary summary_file ;;;
         print (SavedAlleleSummary (len allele_summary))) st
    end.

(** Lines 104-113. The path [cpic_recommendations.parquet] is bound to a
    local name and not used. *)
Definition recommendation_summary : M unit :=
  fun st =>
    match dataframes st !! "recommendation" with
    | None => (Ok tt, st)
    | Some rec_df =>
        (print (Banner "Creating recommendation summary...") ;;;
         let summary_file := recommendations_file in
         print (RecommendationAvailable (len rec_df))) st
    end.

(** [sorted(brick_path.glob("*.parquet"))]: the files by name. *)
Fixpoint insert_sorted (x : string * DataFrame) (l : list (string * DataFrame))
  : list (string * DataFrame) :=
  match l with
  | [] => [x]
  | y :: r => if String.leb (fst x) (fst y) then x :: l else y :: insert_sorted x r
  end.

Definition sorted_files (fs : gmap string DataFrame) : list (string * DataFrame) :=
  List.fold_right insert_sorted [] (map_to_list fs).

(** The read-back loop (lines 119-123): [pd.read_parquet] is not guarded. *)
Fixpoint read_back (w : World) (l : list (string * DataFrame)) (total : nat) : M nat :=
  match l with
  | [] => ret total
  | (f, df) :: r =>
      if read_ok w f then
        print (FileLine f (len df) (length (columns df))) ;;;
        read_back w r (total + len df)
      else raise ArrowError
  end.

(** Lines 115-125. *)
Definition report (w : World) : M unit :=
  print (Banner "Output files:") ;;;
  fun st =>
    (total_records <- read_back w (sorted_files (files st)) 0 ;;
     print (Total total_records (length (sorted_files (files st))))) st.

(** Lines 42-125: [main] from its first banner on. *)
Definition pipeline (w : World) : M unit :=
  print (Banner "Downloading CPIC pharmacogenomics data...") ;;;
  fetch_all w ;;;
  allele_summary w ;;;
  recommendation_summary ;;;
  report w.

(** [main] (lines 38-125). *)
Definition main (w : World) : M unit :=
  mkdir w ;;;
  pipeline w.

(** The state [main] starts in, over the parquet files [fs0] already in
    [brick]. *)
Definition initial_state (fs0 : gmap string DataFrame) : State :=
  {| dataframes := ∅; files := fs0; log := [] |}.

(** A run of the stage in a directory [brick] that is there: what [main]
    does once the [mkdir] of line 40 has returned. *)
Definition run (w : World) (fs0 : gmap string DataFrame) : result unit * State :=
  pipeline w (initial_state fs0).

(** ** The column treatment in the words of the specification

    The first non-null value of a column decides for the whole column:
    an object sample serialises every object cell, a list sample every
    list cell, any other sample changes nothing. *)

Fixpoint first_non_null (s : Series) : option cell :=
  match s with
  | [] => None
  | x :: r => if isna x then first_non_null r else Some x
  end.

(** The same cell, up to the marker of a missing value: [None] and [nan]
    both stand for one, and which of the two a column shows is the choice
    of the dtype pandas gives the column. *)
Definition same_cell (x y : cell) : Prop :=
  y = x \/ (isna x = true /\ isna y = true).


Definition serialize_if (kind : cell -> bool) (x : cell) : cell :=
  if kind x then Obj (PStr (Json.dumps_cell x)) else x.

Definition column_treatment (s : Series) : Series :=
  match first_non_null s with
  | Some sample =>
      if is_dict sample then List.map (serialize_if is_dict) s
      else if is_list sample then List.map (serialize_if is_list) s
      else s
  | None => s
  end.

(** The treatment applied to the columns that carry one label, and to
    the columns that carry any of a list of labels. *)
Definition treat_label (col : string) (q : string * Series) : string * Series :=
  if labelled col q then (fst q, column_treatment (snd q)) else q.

Definition treat_labels (names : list string) (q : string * Series) : string * Series :=
  if mem (fst q) names then (fst q, column_treatment (snd q)) else q.

(** How many columns carry a label. *)
Definition count_label (col : string) (names : list string) : nat :=
  length (List.filter (fun k => String.eqb k col) names).

(** ** Sample inputs *)

(** The records of the end-to-end scenario of the specification. *)
Definition gene_records : list record :=
  [[("Gene Symbol", PStr "CYP2D6"); ("chr", PStr "22")]].

(** Three records with an object column, a list column, and a column
    whose first sample is a scalar and whose later cell is an object. *)
Definition nested_records : list record :=
  [ [("ID", PInt 1); ("Function", PDict [("status", PStr "normal"); ("value", PInt 1)]);
     ("Mixed", PStr "plain")];
    [("ID", PInt 2); ("Function", PNone); ("Citations", PList [PInt 7; PInt 8])];
    [("ID", PInt 3); ("Function", PDict []); ("Citations", PList []);
     ("Mixed", PDict [("k", PNone)])] ].

(** A string between double quotes. *)
Definition quoted (s : string) : string :=
  String Json.dquote (s ++ String Json.dquote EmptyString).

(** The JSON text of the first object of [nested_records], and of its
    first list. *)
Definition function_text : string :=
  "{" ++ quoted "status" ++ ": " ++ quoted "normal" ++ ", " ++ quoted "value" ++ ": 1}".

Definition citations_text : string := "[7, 8]".

(** Two records without any key, and two records none of whose keys is a
    key column of the allele summary. *)
Definition keyless_records : list record := [[]; []].

Definition unkeyed_records : list record := [[("foo", PInt 1)]; [("foo", PInt 2)]].

(** One record whose two distinct keys get the same standard name. *)
Definition colliding_record : record := [("a b", PInt 1); ("a-b", PInt 2)].

(** The tables the normalizer returns for the two samples. *)
Definition gene_table : DataFrame :=
  {| nrows := 1;
     cols := [("gene_symbol", [Obj (PStr "CYP2D6")]); ("chr", [Obj (PStr "22")])] |}.

Definition nested_table : DataFrame :=
  Eval vm_compute in
    match normalize nested_records with
    | Ok df => df
    | Raise _ => {| nrows := 0; cols := [] |}
    end.

(** ** Values as the decoder builds them, and the shape of encoded text *)

Module JsonShape.
Import Json.

(** Pairwise distinct keys. *)
Fixpoint distinct (l : list string) : bool :=
  match l with
  | [] => true
  | k :: r => negb (mem k r) && distinct r
  end.

(** A value as the decoder builds it: the keys of every dict, at every
    depth, are pairwise distinct. *)
Fixpoint wf_pyval (v : pyval) : bool :=
  match v with
  | PList l => List.forallb wf_pyval l
  | PDict d => distinct (List.map fst d) && List.forallb (fun kv => wf_pyval (snd kv)) d
  | _ => true
  end.

(** The number of recursive calls the decoder spends on a value. *)
Fixpoint size (v : pyval) : nat :=
  match v with
  | PList l => S (list_sum (List.map (fun x => S (size x)) l))
  | PDict d => S (list_sum (List.map (fun kv => S (size (snd kv))) d))
  | _ => 1
  end.

(** The text of a non-empty array after its opening bracket, and of a
    non-empty object after the opening quote of its first key. *)
Fixpoint array_text (v : pyval) (vs : list pyval) (rest : string) : string :=
  dumps v ++
  match vs with
  | [] => String "]" rest
  | v' :: vs' => String "," (String " " (array_text v' vs' rest))
  end.

Fixpoint object_text (kv : string * pyval) (kvs : list (string * pyval)) (rest : string)
  : string :=
  escape (fst kv) ++
  String dquote (String ":" (String " " (dumps (snd kv) ++
    match kvs with
    | [] => String "}" rest
    | kv' :: kvs' => String "," (String " " (String dquote (object_text kv' kvs' rest)))
    end))).

(** What may follow a value inside a text that [dumps] wrote: the end, a
    comma, or a closing bracket or brace. *)
Definition delimited (rest : string) : bool :=
  match rest with
  | EmptyString => true
  | String c _ => Ascii.eqb c "," || Ascii.eqb c "]" || Ascii.eqb c "}"
  end.

(** The first character of a number. *)
Definition number_start (c : ascii) : bool :=
  Ascii.eqb c "-" || match digit_cons c with Some _ => true | None => false end.

(** The first character of a value. *)
Definition value_start (c : ascii) : bool :=
  number_start c || Ascii.eqb c dquote || Ascii.eqb c "{" || Ascii.eqb c "["
  || Ascii.eqb c "n" || Ascii.eqb c "t" || Ascii.eqb c "f".

End JsonShape.

(** ** What one iteration contributes *)

(** The table of an endpoint: its fetch returned at least one record and
    the normalizer returned a table. *)
Definition fetched_table (w : World) (endpoint : string) : option DataFrame :=
  match http_get w endpoint with
  | Ok (r :: data) =>
      match normalize (r :: data) with
      | Ok df => Some df
      | Raise _ => None
      end
  | _ => None
  end.

(** The file of an endpoint whose table the encoder accepted as well. *)
Definition written_table (w : World) (ne : string * string) : option DataFrame :=
  match fetched_table w (snd ne) with
  | Some df =>
      if parquet_ok w (output_file (fst ne)) df then Some (parquet_image df) else None
  | None => None
  end.

(** The lines one iteration prints. *)
Definition endpoint_log (w : World) (name endpoint : string) : list event :=
  Fetching endpoint ::
  match http_get w endpoint with
  | Raise e => [ErrorFetching name e]
  | Ok [] => [Retrieved 0]
  | Ok (r :: data) =>
      Retrieved (length (r :: data)) ::
      match normalize (r :: data) with
      | Raise e => [ErrorFetching name e]
      | Ok df =>
          if parquet_ok w (output_file name) df
          then [Saved (len df) (output_file name)]
          else [ErrorFetching name ArrowError]
      end
  end.

(** The state after one iteration. *)
Definition endpoint_step (w : World) (st : State) (ne : string * string) : State :=
  snd (process_endpoint w (fst ne) (snd ne) st).

(** The state in which the loop over the endpoints leaves [main]. *)
Definition loop_state (w : World) (fs0 : gmap string DataFrame) : State :=
  snd (fetch_all w
         (snd (print (Banner "Downloading CPIC pharmacogenomics data...")
                     (initial_state fs0)))).

(** The sum of the row counts of the files of a directory. *)
Definition total_rows (fs : gmap string DataFrame) : nat :=
  list_sum (List.map (fun p => len (snd p)) (map_to_list fs)).

(** The frame the allele summary block writes for the allele table. *)
Definition allele_projection (allele_df : DataFrame) : DataFrame :=
  getitem_list allele_df (List.filter (fun c => mem c (columns allele_df)) key_cols).

(** The blocks that follow the loop. *)
Definition after_loop (w : World) : M unit :=
  allele_summary w ;;; recommendation_summary ;;; report w.

(** ** Sample servers and directories *)

Definition allele_records : list record :=
  [ [("id", PInt 1); ("geneSymbol", PStr "CYP2D6"); ("name", PStr "*1");
     ("functionalStatus", PStr "Normal function"); ("citations", PList [PStr "12345"])];
    [("id", PInt 2); ("geneSymbol", PStr "CYP2D6"); ("name", PStr "*4");
     ("functionalStatus", PStr "No function"); ("citations", PList [])] ].

Definition allele_table : DataFrame :=
  Eval vm_compute in
    match normalize allele_records with
    | Ok df => df
    | Raise _ => {| nrows := 0; cols := [] |}
    end.

(** A server that answers for [gene] and [allele], fails on [drug] and
    has nothing for the other endpoints. *)
Definition sample_server (endpoint : string) : result (list record) :=
  if String.eqb endpoint "gene" then Ok gene_records
  else if String.eqb endpoint "allele" then Ok allele_records
  else if String.eqb endpoint "drug" then Raise HTTPError
  else Ok [].

Definition sample_world : World :=
  {| mkdir_error := None;
     http_get := sample_server;
     parquet_ok := fun _ _ => true;
     read_ok := fun _ => true |}.

(** The same server, with an encoder that rejects the allele table. *)
Definition allele_write_fails : World :=
  {| mkdir_error := None;
     http_get := sample_server;
     parquet_ok := fun path _ => negb (String.eqb path "cpic_allele.parquet");
     read_ok := fun _ => true |}.

(** A server whose [gene] records have no key and whose [allele] records
    have none of the key columns. *)
Definition bare_server (endpoint : string) : result (list record) :=
  if String.eqb endpoint "gene" then Ok keyless_records
  else if String.eqb endpoint "allele" then Ok unkeyed_records
  else Ok [].

Definition bare_world : World :=
  {| mkdir_error := None;
     http_get := bare_server;
     parquet_ok := fun _ _ => true;
     read_ok := fun _ => true |}.

(** A place where [brick] is the name of a regular file. *)
Definition blocked_world : World :=
  {| mkdir_error := Some OSError;
     http_get := sample_server;
     parquet_ok := fun _ _ => true;
     read_ok := fun _ => true |}.

(** A server that is down. *)
Definition offline_world : World :=
  {| mkdir_error := None;
     http_get := fun _ => Raise HTTPError;
     parquet_ok := fun _ _ => true;
     read_ok := fun _ => true |}.

(** A server that fails on [drug] and returns an empty array elsewhere,
    and a directory that still holds the drug file of an earlier run. *)
Definition empty_world : World :=
  {| mkdir_error := None;
     http_get := fun endpoint =>
                   if String.eqb endpoint "drug" then Raise HTTPError else Ok [];
     parquet_ok := fun _ _ => true;
     read_ok := fun _ => true |}.

Definition stale_drug_table : DataFrame :=
  {| nrows := 2; cols := [("drugid", [Obj (PStr "RxNorm:1"); Obj (PStr "RxNorm:2")])] |}.

Definition stale_directory : gmap string DataFrame :=
  {[ "cpic_drug.parquet" := stale_drug_table ]}.


(** ** Vocabulary for the properties of the normalizer and of a run *)

(** A cell that holds a dict or a list. *)
Definition is_nested (x : cell) : bool := is_dict x || is_list x.


(** The lines printed after the loop over the endpoints. *)
Definition after_loop_event (e : event) : bool :=
  match e with
  | Banner _ | SavedAlleleSummary _ | RecommendationAvailable _
  | FileLine _ _ _ | Total _ _ => true
  | Fetching _ | Retrieved _ | Saved _ _ | ErrorFetching _ _ => false
  end.

(** The line the report prints for a file. *)
Definition file_line (p : string * DataFrame) : event :=
  FileLine (fst p) (len (snd p)) (length (columns (snd p))).

(** The files a run may write. *)
Definition run_outputs : list string :=
  summary_file :: List.map (fun ne => output_file (fst ne)) endpoints.

(** The exception one iteration catches, if any. *)
Definition endpoint_error (w : World) (name endpoint : string) : option exn :=
  match http_get w endpoint with
  | Raise e => Some e
  | Ok [] => None
  | Ok (r :: data) =>
      match normalize (r :: data) with
      | Raise e => Some e
      | Ok df => if parquet_ok w (output_file name) df then None else Some ArrowError
      end
  end.

(** Ordered by file name. *)
Definition name_le (p q : string * DataFrame) : Prop :=
  String.leb (fst p) (fst q) = true.

(** The line that opens an iteration. *)
Definition is_fetching (e : event) : bool :=
  match e with Fetching _ => true | _ => false end.

(** * Properties *)

(** ** Column names *)

Module PyStrFacts.
Import PyStr.

Lemma isupper_lower_char (c : ascii) : isupper (lower_char c) = false.
Proof. destruct c as [[] [] [] [] [] [] [] []]; reflexivity. Qed.

Lemma sexists_smap (p : ascii -> bool) (f : ascii -> ascii) (s : string) :
  (forall c, p (f c) = false) -> sexists p (smap f s) = false.
Proof.
  intros Hp. induction s as [|c r IH]; simpl; [reflexivity|].
  now rewrite Hp, IH.
Qed.

Lemma sexists_replace (p : ascii -> bool) (old new : ascii) (s : string) :
  p new = false -> sexists p s = false -> sexists p (replace old new s) = false.
Proof.
  intros Hnew. unfold replace. induction s as [|c r IH]; simpl; [reflexivity|].
  intros H. apply orb_false_iff in H as [Hc Hr].
  rewrite (IH Hr), orb_false_r. now destruct (Ascii.eqb c old).
Qed.

Lemma contains_sexists (c : ascii) (s : string) :
  contains c s = sexists (fun a => Ascii.eqb a c) s.
Proof. induction s as [|a r IH]; simpl; congruence. Qed.

Lemma contains_replace_same (old new : ascii) (s : string) :
  Ascii.eqb new old = false -> contains old (replace old new s) = false.
Proof.
  intros Hne. unfold replace. induction s as [|c r IH]; simpl; [reflexivity|].
  rewrite IH, orb_false_r.
  destruct (Ascii.eqb c old) eqn:E; [exact Hne | exact E].
Qed.

Lemma contains_replace_other (c old new : ascii) (s : string) :
  Ascii.eqb new c = false -> contains c s = false ->
  contains c (replace old new s) = false.
Proof.
  intros Hne H. rewrite contains_sexists in *.
  now apply sexists_replace.
Qed.

Lemma lstrip_spec (s : string) :
  exists pre, s = pre ++ lstrip s
    /\ sforall isspace pre = true
    /\ (forall c, first_char (lstrip s) = Some c -> isspace c = false).
Proof.
  induction s as [|a r (pre & Hr & Hpre & Hfirst)].
  - exists EmptyString. repeat split. discriminate.
  - cbn [lstrip]. destruct (isspace a) eqn:E.
    + exists (String a pre). split; [|split; [|exact Hfirst]].
      * change (String a pre ++ lstrip r) with (String a (pre ++ lstrip r)).
        now rewrite <- Hr.
      * cbn. now rewrite E, Hpre.
    + exists EmptyString. repeat split. intros c [= <-]. exact E.
Qed.

Lemma rstrip_spec (s : string) :
  exists post, s = rstrip s ++ post
    /\ sforall isspace post = true
    /\ (forall c, last_char (rstrip s) = Some c -> isspace c = false)
    /\ (forall c, first_char s = Some c -> isspace c = false ->
                  first_char (rstrip s) = Some c).
Proof.
  induction s as [|a r (post & Hr & Hpost & Hlast & _)].
  - exists EmptyString. repeat split; discriminate.
  - cbn [rstrip]. destruct (rstrip r) as [|b r'] eqn:Er.
    + destruct (isspace a) eqn:E.
      * exists (String a post). repeat split; try discriminate.
        -- change (EmptyString ++ String a post) with (String a post).
           f_equal. exact Hr.
        -- cbn. now rewrite E, Hpost.
        -- intros c [= <-]. congruence.
      * exists post. repeat split.
        -- change (String a EmptyString ++ post) with (String a (EmptyString ++ post)).
           f_equal. exact Hr.
        -- exact Hpost.
        -- intros c [= <-]. exact E.
        -- intros c [= <-] _. reflexivity.
    + exists post. repeat split.
      * change (String a (String b r') ++ post) with (String a (String b r' ++ post)).
        f_equal. exact Hr.
      * exact Hpost.
      * intros c H. apply Hlast. cbn [last_char] in *.
        destruct (last_char r'); [exact H|]. exact H.
      * intros c [= <-] _. reflexivity.
Qed.

(** [strip] removes a run of whitespace at either end and nothing else,
    and leaves no whitespace at either end. *)
Lemma strip_spec (s : string) :
  exists pre post, s = pre ++ strip s ++ post
    /\ sforall isspace pre = true
    /\ sforall isspace post = true
    /\ (forall c, first_char (strip s) = Some c -> isspace c = false)
    /\ (forall c, last_char (strip s) = Some c -> isspace c = false).
Proof.
  unfold strip.
  destruct (lstrip_spec s) as (pre & Hs & Hpre & Hfirst).
  destruct (rstrip_spec (lstrip s)) as (post & Hl & Hpost & Hlast & Hkeep).
  exists pre, post. repeat split; try assumption.
  - now rewrite <- Hl.
  - intros c Hc. destruct (lstrip s) as [|a r] eqn:El; [discriminate|].
    pose proof (Hfirst a eq_refl) as Ha.
    rewrite (Hkeep a eq_refl Ha) in Hc. now injection Hc as <-.
Qed.

End PyStrFacts.

Lemma std_name_no_upper (k : string) : PyStr.sexists PyStr.isupper (std_name k) = false.
Proof.
  unfold std_name.
  do 2 (apply PyStrFacts.sexists_replace; [reflexivity|]).
  apply PyStrFacts.sexists_smap, PyStrFacts.isupper_lower_char.
Qed.

Lemma std_name_no_space (k : string) : PyStr.contains " " (std_name k) = false.
Proof.
  unfold std_name.
  apply PyStrFacts.contains_replace_other; [reflexivity|].
  now apply PyStrFacts.contains_replace_same.
Qed.

Lemma std_name_no_hyphen (k : string) : PyStr.contains "-" (std_name k) = false.
Proof. unfold std_name. now apply PyStrFacts.contains_replace_same. Qed.

(** ** Frames: reading and writing one column *)

Lemma lookup_map {A B} (f : A -> B) (l : list A) (i : nat) :
  List.map f l !! i = option_map f (l !! i).
Proof.
  revert i. induction l as [|x l IH]; intros [|i]; simpl; try reflexivity. apply IH.
Qed.

Lemma columns_pd_DataFrame (data : list record) :
  columns (pd_DataFrame data) = union_keys data.
Proof.
  unfold columns, pd_DataFrame; simpl.
  rewrite List.map_map. simpl. apply List.map_id.
Qed.

Lemma columns_standardize (df : DataFrame) :
  columns (standardize_columns df) = List.map std_name (columns df).
Proof. unfold columns, standardize_columns; simpl. now rewrite !List.map_map. Qed.

Lemma columns_setitem (df : DataFrame) (col : string) (s : Series) :
  columns (setitem df col s) = columns df.
Proof.
  unfold columns, setitem; simpl. rewrite List.map_map.
  apply List.map_ext. intros p. now destruct (labelled col p).
Qed.

Lemma filter_labelled_setitem (col : string) (s : Series) (l : list (string * Series)) :
  List.filter (labelled col)
    (List.map (fun p => if labelled col p then (fst p, s) else p) l)
  = List.map (fun p => (fst p, s)) (List.filter (labelled col) l).
Proof.
  induction l as [|p l IH]; simpl; [reflexivity|].
  destruct (labelled col p) eqn:E; simpl.
  - unfold labelled in *. simpl. rewrite E. simpl. now rewrite IH.
  - rewrite E. exact IH.
Qed.

Lemma getitem_setitem (df : DataFrame) (col : string) (s s' : Series) :
  getitem df col = OneSeries s -> getitem (setitem df col s') col = OneSeries s'.
Proof.
  unfold getitem, setitem; simpl. rewrite filter_labelled_setitem.
  destruct (List.filter (labelled col) (cols df)) as [|p [|q l]]; simpl; congruence.
Qed.

Lemma setitem_setitem (df : DataFrame) (col : string) (s s' : Series) :
  setitem (setitem df col s) col s' = setitem df col s'.
Proof.
  unfold setitem; simpl. f_equal. rewrite List.map_map.
  apply List.map_ext. intros p.
  destruct (labelled col p) eqn:E; [|now rewrite E].
  unfold labelled in *. simpl. now rewrite E.
Qed.

Lemma apply_column_idem (f : cell -> cell) (df : DataFrame) (col : string) :
  (forall x, f (f x) = f x) ->
  apply_column f (apply_column f df col) col = apply_column f df col.
Proof.
  intros Hf. unfold apply_column at 2 3.
  destruct (getitem df col) as [|s|ss] eqn:E.
  - unfold apply_column. now rewrite E.
  - unfold apply_column. rewrite (getitem_setitem _ _ _ _ E), setitem_setitem.
    f_equal. rewrite List.map_map. apply List.map_ext, Hf.
  - unfold apply_column. now rewrite E.
Qed.

Lemma columns_apply_column (f : cell -> cell) (df : DataFrame) (col : string) :
  columns (apply_column f df col) = columns df.
Proof.
  unfold apply_column. destruct (getitem df col); auto using columns_setitem.
Qed.

(** C10: flattening a column twice is flattening it once, for the dict
    and for the list flattener, on every frame and label; a label the
    frame does not carry leaves the frame as it is. *)
Theorem flatten_column_idempotent (df : DataFrame) (col : string) :
  flatten_dict_column (flatten_dict_column df col) col = flatten_dict_column df col
  /\ flatten_list_column (flatten_list_column df col) col = flatten_list_column df col
  /\ (mem col (columns df) = false ->
      flatten_dict_column df col = df /\ flatten_list_column df col = df).
Proof.
  unfold flatten_dict_column, flatten_list_column.
  destruct (mem col (columns df)) eqn:E.
  - rewrite !columns_apply_column, E. repeat split; try discriminate.
    + apply apply_column_idem. intros x. destruct (is_dict x) eqn:D; simpl; now rewrite ?D.
    + apply apply_column_idem. intros x. destruct (is_list x) eqn:D; simpl; now rewrite ?D.
  - rewrite E. auto.
Qed.

Lemma flatten_column_idempotent_witness :
  flatten_dict_column gene_table "function" = gene_table
  /\ flatten_list_column gene_table "function" = gene_table.
Proof.
  apply (flatten_column_idempotent gene_table "function"). reflexivity.
Defined.

(** ** The normalizer *)

Lemma length_filter_labelled (col : string) (l : list (string * Series)) :
  length (List.filter (labelled col) l) = count_label col (List.map fst l).
Proof.
  unfold count_label, labelled. induction l as [|p l IH]; simpl; [reflexivity|].
  destruct (String.eqb (fst p) col); simpl; now rewrite IH.
Qed.

Lemma count_label_pos (x : string) (l : list string) : x ∈ l -> 0 < count_label x l.
Proof.
  unfold count_label. induction 1 as [x l|x y l _ IH]; simpl.
  - rewrite String.eqb_refl. simpl. lia.
  - destruct (String.eqb y x); simpl; lia.
Qed.

Lemma count_label_zero (x : string) (l : list string) : count_label x l = 0 -> x ∉ l.
Proof. intros H Hin. apply count_label_pos in Hin. lia. Qed.

Lemma count_one_NoDup (l : list string) :
  (forall x, x ∈ l -> count_label x l = 1) -> NoDup l.
Proof.
  induction l as [|y l IH]; intros H; constructor.
  - apply count_label_zero. specialize (H y (list_elem_of_here _ _)).
    unfold count_label in *. simpl in H. rewrite String.eqb_refl in H.
    simpl in H. lia.
  - apply IH. intros x Hx.
    pose proof (count_label_pos _ _ Hx) as Hpos.
    specialize (H x (list_elem_of_further _ _ _ Hx)).
    unfold count_label in *. simpl in H.
    destruct (String.eqb y x); simpl in H; lia.
Qed.

Lemma NoDup_count_one (l : list string) (x : string) :
  NoDup l -> x ∈ l -> count_label x l = 1.
Proof.
  induction 1 as [|y l Hy Hnd IH]; intros Hin; [inversion Hin|].
  unfold count_label in *. simpl.
  destruct (String.eqb y x) eqn:E.
  - apply String.eqb_eq in E. subst y. simpl.
    destruct (length (List.filter (fun k => String.eqb k x) l)) eqn:L; [reflexivity|].
    exfalso. apply Hy. destruct (decide (x ∈ l)) as [?|Hn]; [assumption|].
    exfalso. assert (count_label x l = 0 -> False) by (unfold count_label; lia).
    apply H. clear -Hn. unfold count_label. induction l as [|z l IH]; simpl; [reflexivity|].
    destruct (String.eqb z x) eqn:Ez.
    + apply String.eqb_eq in Ez. subst. exfalso. apply Hn. constructor.
    + apply IH. intros ?. apply Hn. now constructor.
  - apply IH. apply elem_of_cons in Hin as [->|?]; [|assumption].
    now rewrite String.eqb_refl in E.
Qed.

Lemma mem_true_iff (k : string) (l : list string) : mem k l = true <-> k ∈ l.
Proof.
  unfold mem. induction l as [|x l IH]; simpl.
  - split; [discriminate|inversion 1].
  - rewrite orb_true_iff, IH, elem_of_cons, String.eqb_eq. reflexivity.
Qed.

Lemma filter_singleton {A} (f : A -> bool) (l : list A) (p q : A) :
  List.filter f l = [p] -> In q l -> f q = true -> q = p.
Proof.
  induction l as [|x l IH]; simpl; [intros _ []|].
  destruct (f x) eqn:E.
  - intros [= -> Hnil] [->|Hin] Hq; [reflexivity|].
    assert (In q (List.filter f l)) as Hq' by (apply List.filter_In; auto).
    rewrite Hnil in Hq'. destruct Hq'.
  - intros H [->|Hin] Hq; [congruence|auto].
Qed.

Lemma filter_singleton_In {A} (f : A -> bool) (l : list A) (p : A) :
  List.filter f l = [p] -> In p l /\ f p = true.
Proof.
  intros H. apply List.filter_In. rewrite H. now left.
Qed.

(** A column of a non-[object] dtype holds no dict and no list. *)
Lemma nested_cell_object_dtype (s : Series) (x : cell) :
  In x s -> is_dict x || is_list x = true -> dtype_is_object s = true.
Proof.
  intros Hin Hx. unfold dtype_is_object.
  assert (List.existsb is_boxed s = true) as ->; [|reflexivity].
  apply List.existsb_exists. exists x. split; [assumption|].
  destruct x as [|[]]; simpl in *; congruence.
Qed.

(** The sample the loop takes, [dropna().head(1)], is the first non-null
    cell. *)
Lemma first_non_null_dropna (s : Series) : List.hd_error (dropna s) = first_non_null s.
Proof.
  unfold dropna. induction s as [|x s IH]; [reflexivity|].
  cbn [List.filter first_non_null]. now destruct (isna x).
Qed.

Lemma first_non_null_In (s : Series) (x : cell) :
  first_non_null s = Some x -> In x s.
Proof.
  rewrite <- first_non_null_dropna. unfold dropna. intros H.
  destruct (List.filter _ s) as [|y l] eqn:E; [discriminate|].
  injection H as ->.
  assert (In x (List.filter (fun x => negb (isna x)) s)) as Hin by (rewrite E; now left).
  now apply List.filter_In in Hin.
Qed.

Lemma column_treatment_not_object (s : Series) :
  dtype_is_object s = false -> column_treatment s = s.
Proof.
  intros Hd. unfold column_treatment.
  destruct (first_non_null s) as [x|] eqn:E; [|reflexivity].
  apply first_non_null_In in E.
  destruct (is_dict x) eqn:D.
  - rewrite (nested_cell_object_dtype s x E) in Hd; [discriminate|now rewrite D].
  - destruct (is_list x) eqn:L; [|reflexivity].
    rewrite (nested_cell_object_dtype s x E) in Hd; [discriminate|now rewrite D, L].
Qed.

Lemma cols_setitem_treat (df : DataFrame) (col : string) (p : string * Series) (s' : Series) :
  List.filter (labelled col) (cols df) = [p] ->
  s' = column_treatment (snd p) ->
  cols (setitem df col s') = List.map (treat_label col) (cols df).
Proof.
  intros Hf ->. unfold setitem; simpl. apply List.map_ext_in.
  intros q Hq. unfold treat_label. destruct (labelled col q) eqn:E; [|reflexivity].
  now rewrite (filter_singleton _ _ _ _ Hf Hq E).
Qed.

Lemma cols_unchanged_treat (df : DataFrame) (col : string) (p : string * Series) :
  List.filter (labelled col) (cols df) = [p] ->
  column_treatment (snd p) = snd p ->
  cols df = List.map (treat_label col) (cols df).
Proof.
  intros Hf Ht. rewrite <- (List.map_id (cols df)) at 1. apply List.map_ext_in.
  intros q Hq. unfold treat_label. destruct (labelled col q) eqn:E; [|reflexivity].
  rewrite (filter_singleton _ _ _ _ Hf Hq E), Ht. now destruct p.
Qed.

Lemma mem_columns_labelled (df : DataFrame) (col : string) (p : string * Series) :
  In p (cols df) -> labelled col p = true -> mem col (columns df) = true.
Proof.
  intros Hin Hl. apply mem_true_iff, list_elem_of_In. unfold columns.
  apply String.eqb_eq in Hl. subst col. now apply List.in_map.
Qed.

(** One pass of the loop body over a label: it succeeds on a label that
    one column carries, and then treats that column and no other. *)
Lemma inspect_column_ok (df df' : DataFrame) (col : string) :
  inspect_column df col = Ok df' ->
  count_label col (columns df) = 1
  /\ nrows df' = nrows df
  /\ cols df' = List.map (treat_label col) (cols df).
Proof.
  unfold inspect_column, getitem.
  destruct (List.filter (labelled col) (cols df)) as [|p [|q l]] eqn:Hf; try discriminate.
  intros H. split.
  { unfold columns. rewrite <- length_filter_labelled, Hf. reflexivity. }
  destruct (filter_singleton_In _ _ _ Hf) as [Hin Hl].
  pose proof (mem_columns_labelled df col p Hin Hl) as Hmem.
  assert (getitem df col = OneSeries (snd p)) as Hget by (unfold getitem; now rewrite Hf).
  destruct (dtype_is_object (snd p)) eqn:Hd.
  - unfold column_treatment in *.
    destruct (dropna (snd p)) as [|x rest] eqn:Hdrop.
    + injection H as <-. split; [reflexivity|].
      apply (cols_unchanged_treat df col p Hf).
      unfold column_treatment. now rewrite <- first_non_null_dropna, Hdrop.
    + destruct (is_dict x) eqn:D; [|destruct (is_list x) eqn:L]; injection H as <-.
      * unfold flatten_dict_column, apply_column. rewrite Hmem, Hget.
        split; [reflexivity|]. apply (cols_setitem_treat df col p _ Hf).
        unfold column_treatment. rewrite <- first_non_null_dropna, Hdrop. simpl. now rewrite D.
      * unfold flatten_list_column, apply_column. rewrite Hmem, Hget.
        split; [reflexivity|]. apply (cols_setitem_treat df col p _ Hf).
        unfold column_treatment. rewrite <- first_non_null_dropna, Hdrop. simpl. now rewrite D, L.
      * split; [reflexivity|]. apply (cols_unchanged_treat df col p Hf).
        unfold column_treatment. rewrite <- first_non_null_dropna, Hdrop. simpl. now rewrite D, L.
  - injection H as <-. split; [reflexivity|].
    apply (cols_unchanged_treat df col p Hf), column_treatment_not_object, Hd.
Qed.

Lemma map_fst_treat_label (col : string) (l : list (string * Series)) :
  List.map fst (List.map (treat_label col) l) = List.map fst l.
Proof.
  rewrite List.map_map. apply List.map_ext. intros q. unfold treat_label.
  now destruct (labelled col q).
Qed.

(** The whole loop: it succeeds only if every label it visits is carried
    by one column; labels and row count stay; and over distinct labels
    every visited column gets the treatment of its own first sample. *)
Lemma flatten_columns_ok (names : list string) :
  forall df df', flatten_columns names df = Ok df' ->
    nrows df' = nrows df
    /\ columns df' = columns df
    /\ (forall col, col ∈ names -> count_label col (columns df) = 1)
    /\ (NoDup names -> cols df' = List.map (treat_labels names) (cols df)).
Proof.
  induction names as [|col rest IH]; simpl; intros df df' H.
  - injection H as <-. repeat split; try reflexivity.
    + intros col Hin. inversion Hin.
    + intros _. rewrite <- (List.map_id (cols df)) at 1. reflexivity.
  - destruct (inspect_column df col) as [df1|e] eqn:E1; [|discriminate].
    apply inspect_column_ok in E1 as (Hc & Hn & Hcols).
    assert (columns df1 = columns df) as Hcol1.
    { unfold columns. rewrite Hcols. apply map_fst_treat_label. }
    destruct (IH _ _ H) as (Hn' & Hcol' & Hcount & Hmap).
    repeat split.
    + congruence.
    + congruence.
    + intros c Hin. apply elem_of_cons in Hin as [->|Hin]; [assumption|].
      rewrite <- Hcol1. auto.
    + intros Hnd. apply NoDup_cons in Hnd as [Hnotin Hnd].
      rewrite (Hmap Hnd), Hcols, List.map_map. apply List.map_ext.
      intros q. unfold treat_labels, treat_label, labelled, mem. simpl.
      rewrite (String.eqb_sym (fst q) col).
      destruct (String.eqb col (fst q)) eqn:Eq; simpl.
      * apply String.eqb_eq in Eq. subst col.
        destruct (List.existsb (String.eqb (fst q)) rest) eqn:Em; [|reflexivity].
        exfalso. apply Hnotin. now apply mem_true_iff.
      * reflexivity.
Qed.

Lemma flatten_columns_raises (names : list string) :
  forall df e, flatten_columns names df = Raise e ->
    (forall c, c ∈ names -> c ∈ columns df) -> e = AttributeError.
Proof.
  induction names as [|col rest IH]; simpl; intros df e H Hsub; [discriminate|].
  destruct (inspect_column df col) as [df1|e1] eqn:E1.
  - apply (IH df1 e H). intros c Hc.
    apply inspect_column_ok in E1 as (_ & _ & Hcols).
    unfold columns. rewrite Hcols, map_fst_treat_label.
    apply Hsub. now apply list_elem_of_further.
  - injection H as <-. unfold inspect_column, getitem in E1.
    destruct (List.filter (labelled col) (cols df)) as [|p [|q l]] eqn:Hf.
    + exfalso. apply (count_label_zero col (columns df)).
      * unfold columns. now rewrite <- length_filter_labelled, Hf.
      * apply Hsub. constructor.
    + destruct (dtype_is_object (snd p)); [|discriminate].
      destruct (dropna (snd p)) as [|x ?]; [discriminate|].
      destruct (is_dict x); [discriminate|]. destruct (is_list x); discriminate.
    + congruence.
Qed.

(** What a successful normalisation returns. *)
Lemma normalize_ok (data : list record) (df : DataFrame) :
  normalize data = Ok df ->
  nrows df = length data
  /\ columns df = List.map std_name (union_keys data)
  /\ NoDup (columns df)
  /\ cols df = List.map (fun q => (fst q, column_treatment (snd q)))
                        (cols (standardize_columns (pd_DataFrame data))).
Proof.
  unfold normalize. intros H.
  destruct (flatten_columns_ok _ _ _ H) as (Hn & Hc & Hcount & Hmap).
  assert (NoDup (columns (standardize_columns (pd_DataFrame data)))) as Hnd
    by (apply count_one_NoDup, Hcount).
  repeat split.
  - exact Hn.
  - now rewrite Hc, columns_standardize, columns_pd_DataFrame.
  - now rewrite Hc.
  - rewrite (Hmap Hnd). apply List.map_ext_in. intros q Hq.
    unfold treat_labels.
    assert (mem (fst q) (columns (standardize_columns (pd_DataFrame data))) = true) as ->;
      [|reflexivity].
    apply mem_true_iff, list_elem_of_In. unfold columns. now apply List.in_map.
Qed.

Lemma normalize_raises (data : list record) (e : exn) :
  normalize data = Raise e -> e = AttributeError.
Proof.
  unfold normalize. intros H. apply (flatten_columns_raises _ _ _ H). auto.
Qed.

Lemma length_column_treatment (s : Series) : length (column_treatment s) = length s.
Proof.
  unfold column_treatment. destruct (first_non_null s) as [x|]; [|reflexivity].
  destruct (is_dict x); [apply List.length_map|].
  destruct (is_list x); [apply List.length_map|reflexivity].
Qed.





Lemma dict_get_Some (r : record) (k : string) :
  k ∈ List.map fst r <-> exists v, dict_get r k = Some v.
Proof.
  induction r as [|[k' v'] r IH]; cbn [List.map dict_get fst].
  - split; [inversion 1|intros [v H]; discriminate].
  - rewrite elem_of_cons. destruct (String.eqb k' k) eqn:E.
    + apply String.eqb_eq in E. subst k'. split; [eauto|now left].
    + apply String.eqb_neq in E. rewrite IH. split; [|tauto].
      intros [->|H]; [congruence|exact H].
Qed.

(** Cell by cell, what serialising one kind of cell does to a column. *)
Lemma serialize_cells (kind : cell -> bool) (s0 : Series) (i : nat) (y : cell) :
  s0 !! i = Some y ->
  if kind y then List.map (serialize_if kind) s0 !! i = Some (Obj (PStr (Json.dumps_cell y)))
  else exists y', List.map (serialize_if kind) s0 !! i = Some y' /\ same_cell y y'.
Proof.
  intros Hy. rewrite lookup_map, Hy. cbn [option_map]. unfold serialize_if.
  destruct (kind y); [reflexivity|]. exists y. split; [reflexivity|now left].
Qed.

(** C2: in a normalised table the first non-null value of a column decides
    for the whole column.  An object sample: every object cell becomes its
    JSON text, and every other cell stays (a missing value stays a missing
    value).  A list sample: the same for the list cells.  Any other
    sample, or none: the column is left as it was, whatever its later
    cells hold. *)
Theorem first_sample_decides_column
  (data : list record) (df : DataFrame) (j : nat) (col : string) (s0 : Series) :
  normalize data = Ok df ->
  cols (standardize_columns (pd_DataFrame data)) !! j = Some (col, s0) ->
  exists s, cols df !! j = Some (col, s)
    /\ length s = length s0
    /\ (forall x, first_non_null s0 = Some x -> is_dict x = true ->
          forall i y, s0 !! i = Some y ->
            if is_dict y then s !! i = Some (Obj (PStr (Json.dumps_cell y)))
            else exists y', s !! i = Some y' /\ same_cell y y')
    /\ (forall x, first_non_null s0 = Some x -> is_list x = true ->
          forall i y, s0 !! i = Some y ->
            if is_list y then s !! i = Some (Obj (PStr (Json.dumps_cell y)))
            else exists y', s !! i = Some y' /\ same_cell y y')
    /\ (forall x, first_non_null s0 = Some x -> is_dict x = false -> is_list x = false ->
          s = s0)
    /\ (first_non_null s0 = None -> s = s0).
Proof.
  intros H Hj. apply normalize_ok in H as (_ & _ & _ & Hcols).
  exists (column_treatment s0). split.
  - rewrite Hcols, lookup_map, Hj. reflexivity.
  - split; [apply length_column_treatment|].
    unfold column_treatment. repeat split.
    + intros x -> D i y Hy. rewrite D. now apply serialize_cells.
    + intros x -> L i y Hy.
      assert (is_dict x = false) as -> by (destruct x as [|[]]; simpl in *; congruence).
      rewrite L. now apply serialize_cells.
    + intros x -> D L. now rewrite D, L.
    + now intros ->.
Qed.

Lemma first_sample_decides_column_witness :
  normalize nested_records = Ok nested_table
  /\ (exists s, cols nested_table !! 1%nat = Some ("function", s)
        /\ s !! 0%nat = Some (Obj (PStr function_text))
        /\ (exists y', s !! 1%nat = Some y' /\ same_cell (Obj PNone) y')
        /\ s !! 2%nat = Some (Obj (PStr "{}")))
  /\ (exists s, cols nested_table !! 3%nat = Some ("citations", s)
        /\ (exists y', s !! 0%nat = Some y' /\ same_cell NaN y')
        /\ s !! 1%nat = Some (Obj (PStr citations_text))
        /\ s !! 2%nat = Some (Obj (PStr "[]")))
  /\ (exists s, cols nested_table !! 2%nat = Some ("mixed", s)
        /\ s = [Obj (PStr "plain"); NaN; Obj (PDict [("k", PNone)])]).
Proof.
  split; [reflexivity|]. split; [|split].
  - destruct (first_sample_decides_column nested_records nested_table
                1 "function"
                [Obj (PDict [("status", PStr "normal"); ("value", PInt 1)]); Obj PNone;
                 Obj (PDict [])]
                eq_refl eq_refl) as (s & Hs & _ & Hdict & _).
    exists s. split; [exact Hs|].
    pose proof (Hdict _ eq_refl eq_refl) as Hcells.
    split; [exact (Hcells 0%nat _ eq_refl)|].
    split; [exact (Hcells 1%nat _ eq_refl)|exact (Hcells 2%nat _ eq_refl)].
  - destruct (first_sample_decides_column nested_records nested_table
                3 "citations"
                [NaN; Obj (PList [PInt 7; PInt 8]); Obj (PList [])]
                eq_refl eq_refl) as (s & Hs & _ & _ & Hlist & _).
    exists s. split; [exact Hs|].
    pose proof (Hlist _ eq_refl eq_refl) as Hcells.
    split; [exact (Hcells 0%nat _ eq_refl)|].
    split; [exact (Hcells 1%nat _ eq_refl)|exact (Hcells 2%nat _ eq_refl)].
  - destruct (first_sample_decides_column nested_records nested_table
                2 "mixed" [Obj (PStr "plain"); NaN; Obj (PDict [("k", PNone)])]
                eq_refl eq_refl) as (s & Hs & _ & _ & _ & Hscalar & _).
    exists s. split; [exact Hs|]. now apply (Hscalar (Obj (PStr "plain"))).
Defined.

(** C4: every column name of a normalised table is the standard name of
    the source key in the same position, that is the key stripped,
    lower-cased, with spaces and then hyphens replaced by underscores; no
    such name holds an upper-case letter, a space or a hyphen. *)
Theorem column_names_standardized (data : list record) (df : DataFrame) :
  normalize data = Ok df ->
  columns df = List.map std_name (union_keys data)
  /\ (forall k, std_name k
        = PyStr.replace "-" "_" (PyStr.replace " " "_" (PyStr.lower (PyStr.strip k))))
  /\ (forall c, c ∈ columns df ->
        PyStr.sexists PyStr.isupper c = false
        /\ PyStr.contains " " c = false
        /\ PyStr.contains "-" c = false).
Proof.
  intros H. apply normalize_ok in H as (_ & Hc & _ & _).
  split; [exact Hc|]. split; [reflexivity|].
  intros c Hin. rewrite Hc in Hin. apply list_elem_of_In, List.in_map_iff in Hin.
  destruct Hin as (k & <- & _).
  auto using std_name_no_upper, std_name_no_space, std_name_no_hyphen.
Qed.

Lemma column_names_standardized_witness :
  normalize gene_records = Ok gene_table
  /\ columns gene_table = List.map std_name (union_keys gene_records).
Proof.
  split; [reflexivity|].
  exact (proj1 (column_names_standardized gene_records gene_table eq_refl)).
Defined.

(** C5, as stated, fails: the two keys of [colliding_record] differ, yet
    after renaming both columns are called [a_b]. *)
Lemma colliding_keys_share_a_name :
  NoDup (List.map fst colliding_record)
  /\ columns (standardize_columns (pd_DataFrame [colliding_record])) = ["a_b"; "a_b"]
  /\ ~ NoDup (columns (standardize_columns (pd_DataFrame [colliding_record]))).
Proof.
  split; [|split].
  - apply (bool_decide_unpack _). vm_compute. exact I.
  - vm_compute. reflexivity.
  - apply (bool_decide_unpack _). vm_compute. exact I.
Qed.

(** C5, amended: every table the normalizer returns has pairwise distinct
    column names; when the renaming makes two labels equal, the column
    inspection raises on the repeated label and no table is returned. *)
Theorem returned_table_names_distinct (data : list record) :
  (forall df, normalize data = Ok df -> NoDup (columns df))
  /\ (~ NoDup (List.map std_name (union_keys data)) ->
      normalize data = Raise AttributeError).
Proof.
  split.
  - intros df H. now apply normalize_ok in H as (_ & _ & ? & _).
  - intros Hdup. destruct (normalize data) as [df|e] eqn:E.
    + exfalso. apply Hdup. apply normalize_ok in E as (_ & <- & ? & _). assumption.
    + f_equal. now apply normalize_raises in E.
Qed.

Lemma returned_table_names_distinct_witness :
  NoDup (columns gene_table)
  /\ normalize [colliding_record] = Raise AttributeError.
Proof.
  split.
  - apply (proj1 (returned_table_names_distinct gene_records)). reflexivity.
  - apply (proj2 (returned_table_names_distinct [colliding_record])).
    apply (bool_decide_unpack _). vm_compute. exact I.
Defined.

(** ** The JSON text of a value reads back as the value *)

Module JsonFacts.
Import Json JsonShape.

Lemma append_cons (c : ascii) (s t : string) : String c s ++ t = String c (s ++ t).
Proof. reflexivity. Qed.

Lemma append_nil_l (t : string) : EmptyString ++ t = t.
Proof. reflexivity. Qed.

Lemma append_assoc (s t u : string) : (s ++ t) ++ u = s ++ (t ++ u).
Proof. induction s as [|c s IH]; [reflexivity|]. now rewrite !append_cons, IH. Qed.

Lemma scanstring_escape_char (c : ascii) (t : string) :
  scanstring (escape_char c ++ t) = prepend c (scanstring t).
Proof. destruct c as [[] [] [] [] [] [] [] []]; reflexivity. Qed.

Lemma scanstring_escape (s rest : string) :
  scanstring (escape s ++ String dquote rest) = Some (s, rest).
Proof.
  induction s as [|c s IH]; [reflexivity|].
  cbn [escape]. rewrite append_assoc, scanstring_escape_char, IH. reflexivity.
Qed.

Lemma delimited_no_digit (rest : string) :
  delimited rest = true -> scan_digits rest = (Decimal.Nil, rest).
Proof.
  destruct rest as [|c r]; [reflexivity|]. simpl.
  destruct c as [[] [] [] [] [] [] [] []]; simpl; try discriminate; reflexivity.
Qed.

Lemma delimited_no_float (rest : string) :
  delimited rest = true -> float_follows rest = false.
Proof.
  destruct rest as [|c r]; [reflexivity|]. simpl.
  destruct c as [[] [] [] [] [] [] [] []]; simpl; try discriminate; reflexivity.
Qed.

Lemma scan_digits_uint (u : Decimal.uint) (rest : string) :
  delimited rest = true ->
  scan_digits (NilEmpty.string_of_uint u ++ rest) = (u, rest).
Proof.
  intros Hd. induction u; cbn [NilEmpty.string_of_uint];
    rewrite ?append_cons, ?append_nil_l;
    try (cbn [scan_digits]; rewrite IHu; reflexivity).
  now apply delimited_no_digit.
Qed.

Lemma to_uint_normal (p : positive) : Decimal.unorm (Pos.to_uint p) = Pos.to_uint p.
Proof.
  rewrite <- DecimalPos.Unsigned.to_of, DecimalPos.Unsigned.of_to. reflexivity.
Qed.

(** The decimal digits of a positive number start with a non-zero digit. *)
Lemma to_uint_head (p : positive) :
  Pos.to_uint p <> Decimal.Nil /\ forall u, Pos.to_uint p <> Decimal.D0 u.
Proof.
  split; [apply DecimalPos.Unsigned.to_uint_nonnil|].
  intros u Hu. pose proof (to_uint_normal p) as Hn.
  unfold Decimal.unorm in Hn.
  pose proof (DecimalFacts.nzhead_nonzero (Pos.to_uint p)) as Hnz.
  destruct (Decimal.nzhead (Pos.to_uint p)) eqn:E.
  all: try (rewrite Hu in Hn; discriminate Hn).
  - apply (DecimalPos.Unsigned.to_uint_nonzero p). now rewrite <- Hn.
  - now apply (Hnz u0).
Qed.

Lemma scan_number_uint (neg : bool) (u : Decimal.uint) (rest : string) :
  u <> Decimal.Nil -> (forall u', u <> Decimal.D0 u') -> delimited rest = true ->
  scan_number ((if neg then "-" else "") ++ NilEmpty.string_of_uint u ++ rest)
  = Some (Z.of_int (if neg then Decimal.Neg u else Decimal.Pos u), rest).
Proof.
  intros Hnil Hz Hd.
  pose proof (scan_digits_uint u rest Hd) as Hs.
  pose proof (delimited_no_float rest Hd) as Hf.
  destruct u; try congruence; try (exfalso; eapply Hz; reflexivity);
    destruct neg; cbn [NilEmpty.string_of_uint] in *;
    rewrite ?append_cons, ?append_nil_l in *;
    unfold scan_number; cbn [Ascii.eqb Bool.eqb digit_cons N_of_ascii N_of_digits N.add N.mul];
    simpl Ascii.eqb; cbv iota; rewrite Hs, Hf; reflexivity.
Qed.

Lemma scan_number_repr (z : Z) (rest : string) :
  delimited rest = true -> scan_number (repr_int z ++ rest) = Some (z, rest).
Proof.
  intros Hd. unfold repr_int. destruct z as [|p|p]; simpl Z.to_int.
  - cbn. rewrite append_cons, append_nil_l. unfold scan_number. simpl.
    now rewrite (delimited_no_float rest Hd).
  - destruct (to_uint_head p) as [Hnil Hz].
    pose proof (scan_number_uint false (Pos.to_uint p) rest Hnil Hz Hd) as H.
    cbv iota in H. rewrite append_nil_l in H. unfold NilZero.string_of_int, NilZero.string_of_uint.
    destruct (Pos.to_uint p) eqn:E; try congruence;
      rewrite H; f_equal; f_equal; rewrite <- E;
      change (Z.of_int (Decimal.Pos (Pos.to_uint p))) with (Z.of_int (Z.to_int (Z.pos p)));
      apply DecimalZ.of_to.
  - destruct (to_uint_head p) as [Hnil Hz].
    pose proof (scan_number_uint true (Pos.to_uint p) rest Hnil Hz Hd) as H.
    unfold NilZero.string_of_int, NilZero.string_of_uint.
    cbv iota in H. rewrite append_cons, append_nil_l in H. rewrite append_cons.
    destruct (Pos.to_uint p) eqn:E; try congruence;
      rewrite H; f_equal; f_equal; rewrite <- E;
      change (Z.of_int (Decimal.Neg (Pos.to_uint p))) with (Z.of_int (Z.to_int (Z.neg p)));
      apply DecimalZ.of_to.
Qed.

Lemma join_array_text (v : pyval) (vs : list pyval) (rest : string) :
  join ", " (List.map dumps (v :: vs)) ++ String "]" rest = array_text v vs rest.
Proof.
  revert v. induction vs as [|v' vs IH]; intros v; [reflexivity|].
  change (join ", " (List.map dumps (v :: v' :: vs)))
    with (dumps v ++ ", " ++ join ", " (List.map dumps (v' :: vs))).
  rewrite !append_assoc, IH. reflexivity.
Qed.

Lemma join_object_text (kv : string * pyval) (kvs : list (string * pyval)) (rest : string) :
  join ", " (List.map (fun kv => encode_string (fst kv) ++ ": " ++ dumps (snd kv)) (kv :: kvs))
    ++ String "}" rest
  = String dquote (object_text kv kvs rest).
Proof.
  revert kv. induction kvs as [|kv' kvs IH]; intros kv.
  - cbn [List.map join object_text]. unfold encode_string.
    rewrite !append_cons, !append_assoc, !append_cons, !append_assoc. reflexivity.
  - change (join ", " (List.map ?f (kv :: kv' :: kvs)))
      with (f kv ++ ", " ++ join ", " (List.map f (kv' :: kvs))).
    cbv beta. rewrite !append_assoc, IH. cbn [object_text]. unfold encode_string.
    rewrite !append_cons, !append_assoc, !append_cons. reflexivity.
Qed.

Lemma uint_head (u : Decimal.uint) :
  u <> Decimal.Nil ->
  exists c r, NilEmpty.string_of_uint u = String c r /\ number_start c = true.
Proof. destruct u; intros H; try congruence; eexists _, _; split; reflexivity. Qed.

Lemma repr_int_head (z : Z) :
  exists c r, repr_int z = String c r /\ number_start c = true.
Proof.
  unfold repr_int. destruct z as [|p|p]; simpl Z.to_int.
  - eexists _, _. split; reflexivity.
  - destruct (to_uint_head p) as [Hnil _].
    destruct (uint_head _ Hnil) as (c & r & E & Hc).
    exists c, r. split; [|exact Hc]. rewrite <- E.
    unfold NilZero.string_of_int, NilZero.string_of_uint.
    now destruct (Pos.to_uint p).
  - eexists _, _. split; reflexivity.
Qed.

Lemma dumps_head (v : pyval) :
  exists c r, dumps v = String c r /\ value_start c = true.
Proof.
  destruct v as [|[]|z|s|l|d]; try (eexists _, _; split; reflexivity).
  destruct (repr_int_head z) as (c & r & E & Hc).
  exists c, r. split; [exact E|]. unfold value_start. now rewrite Hc.
Qed.

Lemma value_start_facts (c : ascii) :
  value_start c = true -> is_ws c = false /\ Ascii.eqb c "]" = false.
Proof. destruct c as [[] [] [] [] [] [] [] []]; simpl; intros H; try discriminate; auto. Qed.

Lemma skip_ws_value (c : ascii) (r : string) :
  value_start c = true -> skip_ws (String c r) = String c r.
Proof. intros H. apply value_start_facts in H as [H _]. simpl. now rewrite H. Qed.

Lemma skip_ws_dumps (v : pyval) (t : string) : skip_ws (dumps v ++ t) = dumps v ++ t.
Proof.
  destruct (dumps_head v) as (c & r & -> & Hc). rewrite append_cons.
  now apply skip_ws_value.
Qed.

Lemma scan_once_number (n : nat) (c : ascii) (r : string) :
  number_start c = true ->
  scan_once (S n) (String c r)
  = match scan_number (String c r) with
    | Some (z, rest) => Some (PInt z, rest)
    | None => None
    end.
Proof. destruct c as [[] [] [] [] [] [] [] []]; simpl; intros H; try discriminate; reflexivity. Qed.

Lemma scan_once_int (n : nat) (z : Z) (rest : string) :
  delimited rest = true -> scan_once (S n) (repr_int z ++ rest) = Some (PInt z, rest).
Proof.
  intros Hd. pose proof (scan_number_repr z rest Hd) as H.
  destruct (repr_int_head z) as (c & r & E & Hc). rewrite E in *.
  rewrite append_cons in *. rewrite (scan_once_number n c _ Hc), H. reflexivity.
Qed.

Lemma dict_set_fresh (d : list (string * pyval)) (k : string) (v : pyval) :
  mem k (List.map fst d) = false -> dict_set d k v = (d ++ [(k, v)])%list.
Proof.
  induction d as [|[k' v'] d IH]; simpl; [reflexivity|].
  intros H. apply orb_false_iff in H as [Hk Hd].
  rewrite String.eqb_sym, Hk, (IH Hd). reflexivity.
Qed.

Lemma mem_app (k : string) (l1 l2 : list string) :
  mem k (l1 ++ l2) = mem k l1 || mem k l2.
Proof. unfold mem. apply List.existsb_app. Qed.

Lemma dict_of_pairs_distinct (d : list (string * pyval)) :
  distinct (List.map fst d) = true -> dict_of_pairs d = d.
Proof.
  unfold dict_of_pairs.
  enough (forall acc,
            distinct (List.map fst d) = true ->
            (forall k, mem k (List.map fst d) = true -> mem k (List.map fst acc) = false) ->
            fold_left (fun d kv => dict_set d (fst kv) (snd kv)) d acc = (acc ++ d)%list) as H.
  { intros Hd. apply (H [] Hd). reflexivity. }
  induction d as [|[k v] d IH]; intros acc Hd Hacc; simpl.
  - now rewrite List.app_nil_r.
  - simpl in Hd. apply andb_true_iff in Hd as [Hk Hd].
    rewrite dict_set_fresh.
    + rewrite IH; [now rewrite <- List.app_assoc|exact Hd|].
      intros k' Hk'. rewrite List.map_app, mem_app. simpl.
      rewrite (Hacc k'); [|simpl; now rewrite Hk', orb_true_r]. simpl.
      rewrite orb_false_r. destruct (String.eqb k' k) eqn:E; [|reflexivity].
      apply String.eqb_eq in E. subst k'. now rewrite Hk' in Hk.
    + apply Hacc. simpl. now rewrite String.eqb_refl.
Qed.

Lemma delimited_bracket (rest : string) : delimited (String "]" rest) = true.
Proof. reflexivity. Qed.
Lemma delimited_brace (rest : string) : delimited (String "}" rest) = true.
Proof. reflexivity. Qed.
Lemma delimited_comma (rest : string) : delimited (String "," rest) = true.
Proof. reflexivity. Qed.

Lemma scan_once_S (n : nat) (c : ascii) (r : string) :
  scan_once (S n) (String c r)
  = if Ascii.eqb c dquote then
      match scanstring r with
      | Some (x, rest) => Some (PStr x, rest)
      | None => None
      end
    else if Ascii.eqb c "{" then
      match skip_ws r with
      | String c1 r1 =>
          if Ascii.eqb c1 "}" then Some (PDict [], r1)
          else if Ascii.eqb c1 dquote then
            match object_items n r1 with
            | Some (pairs, rest) => Some (PDict (dict_of_pairs pairs), rest)
            | None => None
            end
          else None
      | EmptyString => None
      end
    else if Ascii.eqb c "[" then
      match skip_ws r with
      | String c1 r1 =>
          if Ascii.eqb c1 "]" then Some (PList [], r1)
          else
            match array_items n (String c1 r1) with
            | Some (vs, rest) => Some (PList vs, rest)
            | None => None
            end
      | EmptyString => None
      end
    else if Ascii.eqb c "n" then
      match expect "ull" r with Some rest => Some (PNone, rest) | None => None end
    else if Ascii.eqb c "t" then
      match expect "rue" r with Some rest => Some (PBool true, rest) | None => None end
    else if Ascii.eqb c "f" then
      match expect "alse" r with Some rest => Some (PBool false, rest) | None => None end
    else
      match scan_number (String c r) with
      | Some (z, rest) => Some (PInt z, rest)
      | None => None
      end.
Proof. reflexivity. Qed.

Lemma array_items_S (n : nat) (s : string) :
  array_items (S n) s
  = match scan_once n s with
    | None => None
    | Some (v, rest) =>
        match skip_ws rest with
        | String c r =>
            if Ascii.eqb c "]" then Some ([v], r)
            else if Ascii.eqb c "," then
              match array_items n (skip_ws r) with
              | Some (vs, rest') => Some (v :: vs, rest')
              | None => None
              end
            else None
        | EmptyString => None
        end
    end.
Proof. reflexivity. Qed.

Lemma object_items_S (n : nat) (s : string) :
  object_items (S n) s
  = match scanstring s with
    | None => None
    | Some (k, rest) =>
        match skip_ws rest with
        | String c r =>
            if Ascii.eqb c ":" then
              match scan_once n (skip_ws r) with
              | None => None
              | Some (v, rest1) =>
                  match skip_ws rest1 with
                  | String c1 r1 =>
                      if Ascii.eqb c1 "}" then Some ([(k, v)], r1)
                      else if Ascii.eqb c1 "," then
                        match skip_ws r1 with
                        | String c2 r2 =>
                            if Ascii.eqb c2 dquote then
                              match object_items n r2 with
                              | Some (kvs, rest') => Some ((k, v) :: kvs, rest')
                              | None => None
                              end
                            else None
                        | EmptyString => None
                        end
                      else None
                  | EmptyString => None
                  end
              end
            else None
        | EmptyString => None
        end
    end.
Proof. reflexivity. Qed.

Lemma size_PList (l : list pyval) :
  size (PList l) = S (list_sum (List.map (fun x => S (size x)) l)).
Proof. reflexivity. Qed.

Lemma size_PDict (d : list (string * pyval)) :
  size (PDict d) = S (list_sum (List.map (fun kv => S (size (snd kv))) d)).
Proof. reflexivity. Qed.

Lemma array_text_eq (v : pyval) (vs : list pyval) (rest : string) :
  array_text v vs rest
  = dumps v ++
    match vs with
    | [] => String "]" rest
    | v' :: vs' => String "," (String " " (array_text v' vs' rest))
    end.
Proof. destruct vs; reflexivity. Qed.

Lemma object_text_eq (kv : string * pyval) (kvs : list (string * pyval)) (rest : string) :
  object_text kv kvs rest
  = escape (fst kv) ++
    String dquote (String ":" (String " " (dumps (snd kv) ++
      match kvs with
      | [] => String "}" rest
      | kv' :: kvs' => String "," (String " " (String dquote (object_text kv' kvs' rest)))
      end))).
Proof. destruct kvs; reflexivity. Qed.

Lemma array_text_head (v : pyval) (vs : list pyval) (rest : string) :
  exists c r, array_text v vs rest = String c r /\ value_start c = true.
Proof.
  rewrite array_text_eq. destruct (dumps_head v) as (c & r & -> & Hc).
  rewrite append_cons. eauto.
Qed.

(** The decoder reads back what the encoder wrote, given enough fuel. *)
Lemma scan_dumps (n : nat) :
  (forall v rest, size v <= n -> wf_pyval v = true -> delimited rest = true ->
     scan_once n (dumps v ++ rest) = Some (v, rest))
  /\ (forall v vs rest,
        list_sum (List.map (fun x => S (size x)) (v :: vs)) <= n ->
        List.forallb wf_pyval (v :: vs) = true ->
        array_items n (array_text v vs rest) = Some (v :: vs, rest))
  /\ (forall kv kvs rest,
        list_sum (List.map (fun kv => S (size (snd kv))) (kv :: kvs)) <= n ->
        List.forallb (fun kv => wf_pyval (snd kv)) (kv :: kvs) = true ->
        object_items n (object_text kv kvs rest) = Some (kv :: kvs, rest)).
Proof.
  induction n as [|n (IHv & IHa & IHo)].
  { repeat split.
    - intros v rest H. destruct v; simpl in H; lia.
    - intros v vs rest H. simpl in H. lia.
    - intros kv kvs rest H. simpl in H. lia. }
  repeat split.
  - intros v rest Hsz Hwf Hd. destruct v as [|[]|z|s|l|d].
    + reflexivity.
    + reflexivity.
    + reflexivity.
    + now apply scan_once_int.
    + cbn [dumps]. unfold encode_string. rewrite append_cons, scan_once_S.
      cbn [Ascii.eqb Bool.eqb dquote]. cbv iota.
      rewrite append_assoc, append_cons, append_nil_l, scanstring_escape. reflexivity.
    + cbn [dumps]. rewrite !append_cons, append_nil_l, append_assoc, append_cons, append_nil_l.
      rewrite scan_once_S. simpl Ascii.eqb. cbv iota.
      destruct l as [|v vs]; [reflexivity|].
      rewrite join_array_text.
      destruct (array_text_head v vs rest) as (c & r & E & Hc).
      pose proof (value_start_facts c Hc) as [_ Hb].
      rewrite E, (skip_ws_value c r Hc), Hb, <- E.
      rewrite size_PList in Hsz.
      rewrite IHa; [reflexivity|lia|exact Hwf].
    + cbn [dumps]. rewrite !append_cons, append_nil_l, append_assoc, append_cons, append_nil_l.
      rewrite scan_once_S. simpl Ascii.eqb. cbv iota.
      destruct d as [|kv kvs]; [reflexivity|].
      rewrite join_object_text.
      cbn [wf_pyval] in Hwf. apply andb_true_iff in Hwf as [Hdist Hwf].
      change (skip_ws (String dquote ?t)) with (String dquote t).
      simpl Ascii.eqb. cbv iota.
      rewrite size_PDict in Hsz.
      rewrite IHo; [|lia|exact Hwf].
      now rewrite dict_of_pairs_distinct.
  - intros v vs rest Hsz Hwf. rewrite array_items_S.
    change (S (size v) + list_sum (List.map (fun x => S (size x)) vs) <= S n) in Hsz.
    cbn [List.forallb] in Hwf.
    apply andb_true_iff in Hwf as [Hv Hvs].
    rewrite array_text_eq. destruct vs as [|v' vs'].
    + rewrite IHv; [|lia|exact Hv|reflexivity]. reflexivity.
    + rewrite IHv; [|lia|exact Hv|reflexivity].
      change (skip_ws (String "," ?t)) with (String "," t).
      simpl Ascii.eqb. cbv iota.
      change (skip_ws (String " " ?t)) with (skip_ws t).
      destruct (array_text_head v' vs' rest) as (c & r & E & Hc).
      rewrite E, (skip_ws_value c r Hc), <- E.
      rewrite IHa; [reflexivity|lia|exact Hvs].
  - intros [k v] kvs rest Hsz Hwf. rewrite object_items_S.
    change (S (size v) + list_sum (List.map (fun kv => S (size (snd kv))) kvs) <= S n) in Hsz.
    cbn [List.forallb snd] in Hwf.
    apply andb_true_iff in Hwf as [Hv Hvs].
    rewrite object_text_eq. cbn [fst snd]. rewrite scanstring_escape.
    change (skip_ws (String ":" ?t)) with (String ":" t).
    simpl Ascii.eqb. cbv iota.
    change (skip_ws (String " " ?t)) with (skip_ws t).
    rewrite skip_ws_dumps.
    destruct kvs as [|kv' kvs'].
    + rewrite IHv; [|lia|exact Hv|reflexivity]. reflexivity.
    + rewrite IHv; [|lia|exact Hv|reflexivity].
      change (skip_ws (String "," ?t)) with (String "," t).
      simpl Ascii.eqb. cbv iota.
      change (skip_ws (String " " ?t)) with (skip_ws t).
      change (skip_ws (String dquote ?t)) with (String dquote t).
      simpl Ascii.eqb. cbv iota.
      rewrite IHo; [reflexivity|lia|exact Hvs].
Qed.

Lemma length_append (s t : string) :
  String.length (s ++ t) = String.length s + String.length t.
Proof. induction s as [|c s IH]; [reflexivity|]. rewrite append_cons. simpl. now rewrite IH. Qed.

Lemma append_nil_r (s : string) : s ++ EmptyString = s.
Proof. induction s as [|c s IH]; [reflexivity|]. now rewrite append_cons, IH. Qed.

(** Induction over a value and the values nested in it. *)
Lemma pyval_nested_ind (P : pyval -> Prop) :
  P PNone -> (forall b, P (PBool b)) -> (forall z, P (PInt z)) -> (forall s, P (PStr s)) ->
  (forall l, List.Forall P l -> P (PList l)) ->
  (forall d, List.Forall (fun kv => P (snd kv)) d -> P (PDict d)) ->
  forall v, P v.
Proof.
  intros HN HB HI HS HL HD.
  fix IH 1. intros [|b|z|s|l|d].
  - exact HN.
  - apply HB.
  - apply HI.
  - apply HS.
  - apply HL. induction l as [|x l IHl]; constructor; [apply IH|exact IHl].
  - apply HD. induction d as [|[k x] d IHd]; constructor; [apply IH|exact IHd].
Qed.

Lemma dumps_nonempty (v : pyval) : 1 <= String.length (dumps v).
Proof. destruct (dumps_head v) as (c & r & -> & _). simpl. lia. Qed.

Lemma items_size_le (l : list pyval) :
  List.Forall (fun v => size v <= String.length (dumps v)) l ->
  list_sum (List.map (fun x => S (size x)) l)
  <= S (String.length (join ", " (List.map dumps l))).
Proof.
  induction 1 as [|x l Hx Hl IH]; [simpl; lia|].
  destruct l as [|y l].
  - simpl. lia.
  - change (join ", " (List.map dumps (x :: y :: l)))
      with (dumps x ++ ", " ++ join ", " (List.map dumps (y :: l))).
    change (list_sum (List.map (fun x => S (size x)) (x :: y :: l)))
      with (S (size x) + list_sum (List.map (fun x => S (size x)) (y :: l))).
    rewrite !length_append. change (String.length ", ") with 2. lia.
Qed.

Lemma pairs_size_le (d : list (string * pyval)) :
  List.Forall (fun kv => size (snd kv) <= String.length (dumps (snd kv))) d ->
  list_sum (List.map (fun kv => S (size (snd kv))) d)
  <= S (String.length
          (join ", " (List.map (fun kv => encode_string (fst kv) ++ ": " ++ dumps (snd kv)) d))).
Proof.
  induction 1 as [|x l Hx Hl IH]; [simpl; lia|].
  destruct l as [|y l].
  - cbn [List.map join list_sum]. rewrite !length_append. simpl. lia.
  - change (join ", " (List.map ?f (x :: y :: l)))
      with (f x ++ ", " ++ join ", " (List.map f (y :: l))).
    change (list_sum (List.map ?g (x :: y :: l)))
      with (g x + list_sum (List.map g (y :: l))).
    cbv beta. rewrite !length_append. change (String.length ", ") with 2. lia.
Qed.

Lemma size_le_length (v : pyval) : size v <= String.length (dumps v).
Proof.
  induction v as [| | | |l IH|d IH] using pyval_nested_ind;
    try (pose proof (dumps_nonempty PNone); simpl size;
         match goal with |- _ <= String.length (dumps ?v) => apply (dumps_nonempty v) end).
  - rewrite size_PList. cbn [dumps]. rewrite !length_append.
    change (String.length "[") with 1. change (String.length "]") with 1.
    pose proof (items_size_le l IH). lia.
  - rewrite size_PDict. cbn [dumps]. rewrite !length_append.
    change (String.length "{") with 1. change (String.length "}") with 1.
    pose proof (pairs_size_le d IH). lia.
Qed.

(** Parsing the text [dumps] wrote for a value gives the value back. *)
Lemma loads_dumps (v : pyval) : wf_pyval v = true -> loads (dumps v) = Some v.
Proof.
  intros Hwf. unfold loads.
  rewrite <- (append_nil_r (dumps v)) at 2. rewrite skip_ws_dumps.
  destruct (scan_dumps (S (String.length (dumps v)))) as (Hv & _ & _).
  rewrite Hv; [reflexivity| |exact Hwf|reflexivity].
  pose proof (size_le_length v). lia.
Qed.

End JsonFacts.

(** C3: a source value that is an object (or a list), in a column whose
    first non-null sample is an object (or a list, respectively), appears
    in the normalised table as the string [json.dumps] gives for it, and
    [json.loads] of that string is the source value again. *)
Theorem flattened_cell_round_trip
  (data : list record) (df : DataFrame) (j i : nat) (k : string) (r : record)
  (v : pyval) (sample : cell) :
  normalize data = Ok df ->
  union_keys data !! j = Some k ->
  data !! i = Some r ->
  dict_get r k = Some v ->
  first_non_null (List.map (fun r => cell_of r k) data) = Some sample ->
  is_dict sample && is_dict (Obj v) || is_list sample && is_list (Obj v) = true ->
  JsonShape.wf_pyval v = true ->
  exists s, cols df !! j = Some (std_name k, s)
    /\ s !! i = Some (Obj (PStr (Json.dumps v)))
    /\ Json.loads (Json.dumps v) = Some v.
Proof.
  intros H Hj Hi Hget Hsample Hkind Hwf.
  apply normalize_ok in H as (_ & _ & _ & Hcols).
  exists (column_treatment (List.map (fun r => cell_of r k) data)).
  split; [|split].
  - rewrite Hcols. unfold standardize_columns, pd_DataFrame. cbn [cols].
    rewrite !lookup_map, Hj. reflexivity.
  - unfold column_treatment. rewrite Hsample.
    assert (List.map (fun r => cell_of r k) data !! i = Some (Obj v)) as Hcell.
    { rewrite lookup_map, Hi. simpl. unfold cell_of. now rewrite Hget. }
    destruct (is_dict sample) eqn:D.
    + assert (is_dict (Obj v) = true) as Dv.
      { destruct (is_dict (Obj v)); [reflexivity|].
        destruct sample as [|[]]; simpl in *; try discriminate;
          destruct v; discriminate. }
      rewrite lookup_map, Hcell. unfold serialize_if. cbn [option_map]. now rewrite Dv.
    + cbn [andb orb] in Hkind.
      apply andb_true_iff in Hkind as [L Lv]. rewrite L.
      rewrite lookup_map, Hcell. unfold serialize_if. cbn [option_map]. now rewrite Lv.
  - now apply JsonFacts.loads_dumps.
Qed.

Lemma flattened_cell_round_trip_witness :
  exists s, cols nested_table !! 1%nat = Some ("function", s)
    /\ s !! 0%nat
       = Some (Obj (PStr (Json.dumps (PDict [("status", PStr "normal"); ("value", PInt 1)]))))
    /\ Json.loads (Json.dumps (PDict [("status", PStr "normal"); ("value", PInt 1)]))
       = Some (PDict [("status", PStr "normal"); ("value", PInt 1)]).
Proof.
  exact (flattened_cell_round_trip nested_records nested_table 1 0 "Function"
           [("ID", PInt 1);
            ("Function", PDict [("status", PStr "normal"); ("value", PInt 1)]);
            ("Mixed", PStr "plain")]
           (PDict [("status", PStr "normal"); ("value", PInt 1)])
           (Obj (PDict [("status", PStr "normal"); ("value", PInt 1)]))
           eq_refl eq_refl eq_refl eq_refl eq_refl eq_refl eq_refl).
Defined.

(** ** The loop over the endpoints *)

Lemma process_endpoint_effect (w : World) (name endpoint : string) (st : State) :
  process_endpoint w name endpoint st
  = (Ok tt,
     {| dataframes :=
          match fetched_table w endpoint with
          | Some df => <[name := df]> (dataframes st)
          | None => dataframes st
          end;
        files :=
          match written_table w (name, endpoint) with
          | Some df => <[output_file name := df]> (files st)
          | None => files st
          end;
        log := log st ++ endpoint_log w name endpoint |}).
Proof.
  unfold process_endpoint, try_except, endpoint_body, fetch_endpoint, written_table,
    fetched_table, endpoint_log, bind, lift, print, store, to_parquet, ret.
  cbn [fst snd dataframes files log].
  destruct (http_get w endpoint) as [[|r data]|e]; cbn [dataframes files log];
    rewrite <- ?List.app_assoc; try reflexivity.
  destruct (normalize (r :: data)) as [df|e]; cbn [dataframes files log];
    rewrite <- ?List.app_assoc; try reflexivity.
  destruct (parquet_ok w (output_file name) df); cbn [dataframes files log];
    rewrite <- ?List.app_assoc; reflexivity.
Qed.

Lemma for_each_endpoints (w : World) (l : list (string * string)) (st : State) :
  for_each l (fun ne => process_endpoint w (fst ne) (snd ne)) st
  = (Ok tt, fold_left (endpoint_step w) l st).
Proof.
  revert st. induction l as [|ne l IH]; intros st; [reflexivity|].
  cbn [for_each fold_left]. unfold bind at 1.
  unfold endpoint_step at 2. rewrite process_endpoint_effect. cbn [snd]. apply IH.
Qed.

(** A fold whose steps write at most one key each, over distinct keys. *)
Lemma fold_left_keyed {A V S : Type} (proj : S -> gmap string V) (step : S -> A -> S)
  (key : A -> string) (upd : A -> option V) (l : list A) :
  (forall st a, proj (step st a)
                = match upd a with
                  | Some v => <[key a := v]> (proj st)
                  | None => proj st
                  end) ->
  NoDup (key <$> l) ->
  forall st,
    (forall a, a ∈ l ->
       proj (fold_left step l st) !! key a
       = match upd a with Some v => Some v | None => proj st !! key a end)
    /\ (forall k, k ∉ key <$> l -> proj (fold_left step l st) !! k = proj st !! k).
Proof.
  intros Hstep. induction l as [|a l IH]; intros Hnd st.
  - split; [intros a Ha; inversion Ha|reflexivity].
  - rewrite fmap_cons in Hnd. apply NoDup_cons in Hnd as [Hnotin Hnd].
    destruct (IH Hnd (step st a)) as [IHin IHout]. cbn [fold_left]. split.
    + intros b Hb. apply elem_of_cons in Hb as [->|Hb].
      * rewrite (IHout _ Hnotin), Hstep.
        destruct (upd a); [apply lookup_insert_eq|reflexivity].
      * rewrite (IHin _ Hb). destruct (upd b); [reflexivity|].
        rewrite Hstep. destruct (upd a); [|reflexivity].
        apply lookup_insert_ne. intros E. apply Hnotin. rewrite E.
        now apply list_elem_of_fmap_2.
    + intros k Hk. rewrite fmap_cons in Hk. apply not_elem_of_cons in Hk as [Hne Hk].
      rewrite (IHout _ Hk), Hstep. destruct (upd a); [|reflexivity].
      now apply lookup_insert_ne.
Qed.

Lemma endpoint_names_distinct : NoDup (fst <$> endpoints).
Proof. apply (bool_decide_unpack _). vm_compute. exact I. Qed.

Lemma endpoint_files_distinct : NoDup ((fun ne => output_file (fst ne)) <$> endpoints).
Proof. apply (bool_decide_unpack _). vm_compute. exact I. Qed.

Lemma loop_state_eq (w : World) (fs0 : gmap string DataFrame) :
  loop_state w fs0
  = fold_left (endpoint_step w) endpoints
      (snd (print (Banner "Downloading CPIC pharmacogenomics data...") (initial_state fs0))).
Proof. unfold loop_state, fetch_all. now rewrite for_each_endpoints. Qed.

(** The dict [dataframes] after the loop. *)
Lemma loop_dataframes (w : World) (fs0 : gmap string DataFrame) :
  (forall name endpoint, (name, endpoint) ∈ endpoints ->
     dataframes (loop_state w fs0) !! name = fetched_table w endpoint)
  /\ (forall k, k ∉ fst <$> endpoints -> dataframes (loop_state w fs0) !! k = None).
Proof.
  rewrite loop_state_eq.
  destruct (fold_left_keyed dataframes (endpoint_step w) fst
              (fun ne => fetched_table w (snd ne)) endpoints) with
    (st := snd (print (Banner "Downloading CPIC pharmacogenomics data...")
                      (initial_state fs0))) as [Hin Hout].
  - intros st [name endpoint]. unfold endpoint_step. now rewrite process_endpoint_effect.
  - exact endpoint_names_distinct.
  - split.
    + intros name endpoint H. pose proof (Hin _ H) as Hx. cbn [fst snd] in Hx.
      rewrite Hx. destruct (fetched_table w endpoint); [reflexivity|]. apply lookup_empty.
    + intros k Hk. rewrite (Hout _ Hk). apply lookup_empty.
Qed.

(** The directory after the loop. *)
Lemma loop_files (w : World) (fs0 : gmap string DataFrame) :
  (forall name endpoint, (name, endpoint) ∈ endpoints ->
     files (loop_state w fs0) !! output_file name
     = match written_table w (name, endpoint) with
       | Some df => Some df
       | None => fs0 !! output_file name
       end)
  /\ (forall f, f ∉ (fun ne => output_file (fst ne)) <$> endpoints ->
        files (loop_state w fs0) !! f = fs0 !! f).
Proof.
  rewrite loop_state_eq.
  destruct (fold_left_keyed files (endpoint_step w) (fun ne => output_file (fst ne))
              (written_table w) endpoints) with
    (st := snd (print (Banner "Downloading CPIC pharmacogenomics data...")
                      (initial_state fs0))) as [Hin Hout].
  - intros st [name endpoint]. unfold endpoint_step. now rewrite process_endpoint_effect.
  - exact endpoint_files_distinct.
  - split.
    + intros name endpoint H. pose proof (Hin _ H) as Hx. cbn [fst snd] in Hx.
      now rewrite Hx.
    + intros f Hf. now rewrite (Hout _ Hf).
Qed.

(** ** The blocks after the loop *)

Lemma allele_summary_effect (w : World) (st : State) :
  allele_summary w st
  = match dataframes st !! "allele" with
    | None => (Ok tt, st)
    | Some allele_df =>
        if parquet_ok w summary_file (allele_projection allele_df)
        then (Ok tt,
              {| dataframes := dataframes st;
                 files := <[summary_file := parquet_image (allele_projection allele_df)]>
                            (files st);
                 log := log st ++ [Banner "Creating allele function summary...";
                                   SavedAlleleSummary (len (allele_projection allele_df))] |})
        else (Raise ArrowError,
              {| dataframes := dataframes st; files := files st;
                 log := log st ++ [Banner "Creating allele function summary..."] |})
    end.
Proof.
  unfold allele_summary. destruct (dataframes st !! "allele") as [t|]; [|reflexivity].
  unfold bind, print, to_parquet. cbn [dataframes files log].
  fold (allele_projection t).
  destruct (parquet_ok w summary_file (allele_projection t)); cbn [dataframes files log];
    rewrite <- ?List.app_assoc; reflexivity.
Qed.

Lemma recommendation_summary_effect (st : State) :
  recommendation_summary st
  = (Ok tt,
     match dataframes st !! "recommendation" with
     | None => st
     | Some rec_df =>
         {| dataframes := dataframes st; files := files st;
            log := log st ++ [Banner "Creating recommendation summary...";
                              RecommendationAvailable (len rec_df)] |}
     end).
Proof.
  unfold recommendation_summary.
  destruct (dataframes st !! "recommendation") as [t|]; [|reflexivity].
  unfold bind, print. cbn [dataframes files log]. now rewrite <- List.app_assoc.
Qed.

Lemma bind_print {B} (e : event) (k : M B) (st : State) :
  (print e ;;; k) st
  = k {| dataframes := dataframes st; files := files st; log := log st ++ [e] |}.
Proof. reflexivity. Qed.

Lemma read_back_effect (w : World) (l : list (string * DataFrame)) :
  forall total st,
    dataframes (snd (read_back w l total st)) = dataframes st
    /\ files (snd (read_back w l total st)) = files st
    /\ (forall t, fst (read_back w l total st) = Ok t ->
          t = total + list_sum (List.map (fun p => len (snd p)) l)).
Proof.
  induction l as [|[f df] l IH]; intros total st.
  - cbn. repeat split. intros t [= <-]. lia.
  - cbn [read_back]. destruct (read_ok w f).
    + rewrite bind_print.
      destruct (IH (total + len df)
                   {| dataframes := dataframes st; files := files st;
                      log := log st ++ [FileLine f (len df) (length (columns df))] |})
        as (Hd & Hf & Ht).
      repeat split; [exact Hd|exact Hf|].
      intros t H. rewrite (Ht t H). cbn [List.map snd].
      change (list_sum (?a :: ?l')) with (a + list_sum l'). lia.
    + cbn. repeat split. discriminate.
Qed.

Lemma report_effect (w : World) (st : State) :
  dataframes (snd (report w st)) = dataframes st
  /\ files (snd (report w st)) = files st
  /\ (fst (report w st) = Ok tt ->
      last (log (snd (report w st)))
      = Some (Total (list_sum (List.map (fun p => len (snd p)) (sorted_files (files st))))
                    (length (sorted_files (files st))))).
Proof.
  unfold report. rewrite bind_print. unfold bind. cbn [files].
  pose proof (read_back_effect w (sorted_files (files st)) 0
                {| dataframes := dataframes st; files := files st;
                   log := log st ++ [Banner "Output files:"] |}) as (Hd & Hf & Ht).
  destruct (read_back w (sorted_files (files st)) 0 _) as [[t|e] st2];
    cbn [fst snd dataframes files] in *.
  - unfold print. cbn [fst snd dataframes files log].
    repeat split; [exact Hd|exact Hf|].
    intros _. rewrite last_snoc, (Ht t eq_refl). reflexivity.
  - repeat split; [exact Hd|exact Hf|discriminate].
Qed.

Lemma run_after_loop (w : World) (fs0 : gmap string DataFrame) :
  run w fs0 = after_loop w (loop_state w fs0).
Proof.
  unfold run, pipeline, after_loop, loop_state. rewrite bind_print.
  unfold bind at 1. cbn [print snd]. unfold fetch_all. rewrite for_each_endpoints. reflexivity.
Qed.

(** Nothing after the loop touches [dataframes]; nothing after the allele
    summary touches the directory. *)
Lemma after_loop_effect (w : World) (st : State) :
  dataframes (snd (after_loop w st)) = dataframes st
  /\ files (snd (after_loop w st)) = files (snd (allele_summary w st)).
Proof.
  unfold after_loop. unfold bind at 1 3.
  assert (dataframes (snd (allele_summary w st)) = dataframes st) as Hda.
  { rewrite allele_summary_effect. destruct (dataframes st !! "allele"); [|reflexivity].
    now destruct (parquet_ok w summary_file _). }
  destruct (allele_summary w st) as [[[]|e] st1]; cbn [snd] in *; [|auto].
  unfold bind. rewrite recommendation_summary_effect.
  set (st2 := match dataframes st1 !! "recommendation" with
              | None => st1 | Some _ => _ end).
  assert (dataframes st2 = dataframes st1 /\ files st2 = files st1) as [Hd2 Hf2]
    by (subst st2; now destruct (dataframes st1 !! "recommendation")).
  destruct (report_effect w st2) as (Hd & Hf & _).
  split; congruence.
Qed.

Lemma summary_file_fresh : summary_file ∉ (fun ne => output_file (fst ne)) <$> endpoints.
Proof. apply (bool_decide_unpack _). vm_compute. exact I. Qed.

Lemma recommendations_file_fresh :
  recommendations_file ∉ summary_file :: ((fun ne => output_file (fst ne)) <$> endpoints).
Proof. apply (bool_decide_unpack _). vm_compute. exact I. Qed.

Lemma output_file_elem (name endpoint : string) :
  (name, endpoint) ∈ endpoints ->
  output_file name ∈ (fun ne => output_file (fst ne)) <$> endpoints.
Proof. intros H. now apply (list_elem_of_fmap_2 (fun ne => output_file (fst ne)) _ _ H). Qed.

(** The directory at the end of a run, file by file. *)
Lemma run_files (w : World) (fs0 : gmap string DataFrame) (f : string) :
  f <> summary_file ->
  files (snd (run w fs0)) !! f = files (loop_state w fs0) !! f.
Proof.
  intros Hne. rewrite run_after_loop.
  destruct (after_loop_effect w (loop_state w fs0)) as [_ ->].
  rewrite allele_summary_effect.
  destruct (dataframes (loop_state w fs0) !! "allele"); [|reflexivity].
  destruct (parquet_ok w summary_file _); [|reflexivity].
  cbn [snd files]. now apply lookup_insert_ne.
Qed.

Lemma run_dataframes (w : World) (fs0 : gmap string DataFrame) :
  dataframes (snd (run w fs0)) = dataframes (loop_state w fs0).
Proof. rewrite run_after_loop. apply after_loop_effect. Qed.

Lemma run_endpoint_file (w : World) (fs0 : gmap string DataFrame) (name endpoint : string) :
  (name, endpoint) ∈ endpoints ->
  files (snd (run w fs0)) !! output_file name
  = match written_table w (name, endpoint) with
    | Some df => Some df
    | None => fs0 !! output_file name
    end.
Proof.
  intros H. rewrite run_files.
  - now apply loop_files.
  - intros E. apply summary_file_fresh. rewrite <- E. now apply (output_file_elem name endpoint).
Qed.

(** ** A run, end to end *)

Lemma endpoint_is_name (name endpoint : string) :
  (name, endpoint) ∈ endpoints -> endpoint = name.
Proof.
  unfold endpoints. intros H.
  repeat (apply elem_of_cons in H as [[= -> ->]|H]; [reflexivity|]).
  inversion H.
Qed.

Lemma fetched_table_ok (w : World) (endpoint : string) (data : list record) :
  http_get w endpoint = Ok data -> data <> [] ->
  fetched_table w endpoint
  = match normalize data with Ok df => Some df | Raise _ => None end.
Proof.
  intros H Hne. unfold fetched_table. rewrite H. now destruct data.
Qed.

Lemma parquet_image_cols (df : DataFrame) : cols df <> [] -> parquet_image df = df.
Proof. unfold parquet_image. now destruct (cols df). Qed.

Lemma parquet_image_columns (df : DataFrame) : columns (parquet_image df) = columns df.
Proof. unfold parquet_image, columns. destruct (cols df) eqn:E; cbn [cols]; now rewrite ?E. Qed.

Lemma parquet_image_bare (df : DataFrame) : cols df = [] -> len (parquet_image df) = 0.
Proof. unfold parquet_image. now intros ->. Qed.





Lemma labelled_fst (col : string) (l : list (string * Series)) (p : string * Series) :
  In p (List.filter (labelled col) l) -> fst p = col.
Proof.
  intros H. apply List.filter_In in H as [_ H]. now apply String.eqb_eq in H.
Qed.

Lemma columns_getitem_list (df : DataFrame) (names : list string) :
  (forall c, In c names -> count_label c (columns df) = 1) ->
  columns (getitem_list df names) = names.
Proof.
  unfold columns, getitem_list. cbn [cols].
  induction names as [|c names IH]; intros H; [reflexivity|].
  cbn [List.flat_map]. rewrite List.map_app, IH by (intros; apply H; now right).
  specialize (H c (or_introl eq_refl)).
  unfold columns in H. rewrite <- length_filter_labelled in H.
  pose proof (labelled_fst c (cols df)) as Hfst.
  destruct (List.filter (labelled c) (cols df)) as [|p [|q l]]; try discriminate.
  cbn. now rewrite (Hfst p (or_introl eq_refl)).
Qed.

Lemma allele_in_endpoints : ("allele", "allele") ∈ endpoints.
Proof. apply (bool_decide_unpack _). vm_compute. exact I. Qed.

Lemma filter_labelled_twice (c c' : string) (l : list (string * Series)) :
  List.filter (labelled c) (List.filter (labelled c') l)
  = if String.eqb c' c then List.filter (labelled c) l else [].
Proof.
  destruct (String.eqb_spec c' c) as [->|Hne].
  - induction l as [|p l IH]; [reflexivity|]. cbn [List.filter].
    destruct (labelled c p) eqn:E; cbn [List.filter]; rewrite ?E, IH; reflexivity.
  - induction l as [|p l IH]; [reflexivity|]. cbn [List.filter].
    destruct (labelled c' p) eqn:E'; [|exact IH]. cbn [List.filter]. rewrite IH.
    destruct (labelled c p) eqn:E; [|reflexivity].
    unfold labelled in *. apply String.eqb_eq in E, E'. congruence.
Qed.

Lemma filter_labelled_getitem_list (df : DataFrame) (names : list string) (c : string) :
  NoDup names ->
  List.filter (labelled c) (cols (getitem_list df names))
  = if mem c names then List.filter (labelled c) (cols df) else [].
Proof.
  unfold getitem_list. cbn [cols]. induction 1 as [|c' names Hnotin Hnd IH]; [reflexivity|].
  cbn [List.flat_map]. rewrite List.filter_app, IH, filter_labelled_twice.
  unfold mem. cbn [List.existsb]. rewrite (String.eqb_sym c c').
  destruct (String.eqb c' c) eqn:E; cbn [orb]; [|reflexivity].
  apply String.eqb_eq in E. subst c'.
  assert (List.existsb (String.eqb c) names = false) as ->.
  { destruct (List.existsb (String.eqb c) names) eqn:Em; [|reflexivity].
    exfalso. apply Hnotin. now apply mem_true_iff. }
  apply List.app_nil_r.
Qed.

Lemma key_cols_distinct : NoDup key_cols.
Proof. apply (bool_decide_unpack _). vm_compute. exact I. Qed.

Lemma NoDup_filter_bool (f : string -> bool) (l : list string) :
  NoDup l -> NoDup (List.filter f l).
Proof.
  induction 1 as [|x l Hx Hnd IH]; [constructor|]. cbn [List.filter].
  destruct (f x); [|exact IH]. constructor; [|exact IH].
  intros Hin. apply Hx. apply list_elem_of_In in Hin. apply List.filter_In in Hin as [Hin _].
  now apply list_elem_of_In.
Qed.

Lemma mem_filter (f : string -> bool) (l : list string) (c : string) :
  mem c (List.filter f l) = mem c l && f c.
Proof.
  unfold mem. induction l as [|x l IH]; [reflexivity|]. cbn [List.filter List.existsb].
  destruct (f x) eqn:Ex; cbn [List.existsb]; rewrite IH;
    destruct (String.eqb c x) eqn:E; cbn [orb]; try reflexivity;
    apply String.eqb_eq in E; subst x; rewrite Ex.
  - reflexivity.
  - now rewrite andb_false_r.
Qed.

Lemma getitem_allele_projection (allele_df : DataFrame) (c : string) :
  getitem (allele_projection allele_df) c
  = if mem c key_cols then getitem allele_df c else NoColumn.
Proof.
  unfold getitem, allele_projection.
  rewrite filter_labelled_getitem_list by (apply NoDup_filter_bool, key_cols_distinct).
  rewrite mem_filter. destruct (mem c key_cols); [|reflexivity]. cbn [andb].
  destruct (mem c (columns allele_df)) eqn:Em; [reflexivity|].
  destruct (List.filter (labelled c) (cols allele_df)) as [|p l] eqn:Hf; [reflexivity|].
  exfalso. assert (In p (List.filter (labelled c) (cols allele_df))) as Hin
    by (rewrite Hf; now left).
  apply List.filter_In in Hin as [Hin Hl].
  now rewrite (mem_columns_labelled allele_df c p Hin Hl) in Em.
Qed.

Lemma cols_parquet_image (df : DataFrame) : cols (parquet_image df) = cols df.
Proof. unfold parquet_image. destruct (cols df) eqn:E; cbn [cols]; now rewrite ?E. Qed.

Lemma getitem_parquet_image (df : DataFrame) (c : string) :
  getitem (parquet_image df) c = getitem df c.
Proof. unfold getitem. now rewrite cols_parquet_image. Qed.

(** C6, as stated, fails on [bare_world]: the allele table has two rows
    and none of the seven key columns, and the summary file, which has no
    column, has no row. *)
Lemma unkeyed_allele_summary_has_no_row :
  http_get bare_world "allele" = Ok unkeyed_records
  /\ (exists allele_df,
        dataframes (snd (run bare_world ∅)) !! "allele" = Some allele_df
        /\ columns allele_df = ["foo"]
        /\ len allele_df = 2)
  /\ (exists f,
        files (snd (run bare_world ∅)) !! summary_file = Some f
        /\ columns f = []
        /\ len f = 0).
Proof.
  split; [reflexivity|]. split.
  - exists {| nrows := 2; cols := [("foo", [Obj (PInt 1); Obj (PInt 2)])] |}.
    repeat apply conj; vm_compute; reflexivity.
  - exists {| nrows := 0; cols := [] |}. repeat apply conj; vm_compute; reflexivity.
Qed.

(** C6, amended: when the allele endpoint yields a table and the encoder
    accepts the summary, the file [cpic_allele_functions.parquet] has as
    columns the seven key columns, in their fixed order, that the allele
    table has; under each of them it holds the cells the allele table
    holds; and when there is at least one such column its row count is
    that of the allele table.  When the allele table has none of the seven
    columns the file has no column and no row. *)
Theorem allele_functions_projection
  (w : World) (fs0 : gmap string DataFrame) (data : list record) (allele_df : DataFrame) :
  http_get w "allele" = Ok data ->
  data <> [] ->
  normalize data = Ok allele_df ->
  dataframes (snd (run w fs0)) !! "allele" = Some allele_df
  /\ if parquet_ok w summary_file (allele_projection allele_df) then
       exists f, files (snd (run w fs0)) !! summary_file = Some f
         /\ columns f = List.filter (fun c => mem c (columns allele_df)) key_cols
         /\ (forall c, getitem f c
                       = if mem c key_cols then getitem allele_df c else NoColumn)
         /\ (columns f <> [] -> len f = len allele_df)
         /\ (columns f = [] -> len f = 0)
     else files (snd (run w fs0)) !! summary_file = fs0 !! summary_file.
Proof.
  intros Hget Hne Hnorm.
  assert (dataframes (loop_state w fs0) !! "allele" = Some allele_df) as Hdf.
  { rewrite (proj1 (loop_dataframes w fs0) _ _ allele_in_endpoints).
    now rewrite (fetched_table_ok w _ data Hget Hne), Hnorm. }
  split; [now rewrite run_dataframes|].
  rewrite run_after_loop.
  destruct (after_loop_effect w (loop_state w fs0)) as [_ ->].
  rewrite allele_summary_effect, Hdf.
  destruct (parquet_ok w summary_file (allele_projection allele_df)); cbn [snd files].
  - exists (parquet_image (allele_projection allele_df)).
    split; [apply lookup_insert_eq|].
    assert (columns (allele_projection allele_df)
            = List.filter (fun c => mem c (columns allele_df)) key_cols) as Hcols.
    { apply columns_getitem_list. intros c Hc.
      apply List.filter_In in Hc as [_ Hc].
      apply normalize_ok in Hnorm as (_ & _ & Hnd & _).
      apply NoDup_count_one; [exact Hnd|now apply mem_true_iff]. }
    rewrite parquet_image_columns. split; [exact Hcols|]. split.
    + intros c. rewrite getitem_parquet_image. apply getitem_allele_projection.
    + split.
      * intros Hc. rewrite parquet_image_cols; [reflexivity|].
        intros E. apply Hc. unfold columns. now rewrite E.
      * intros Hc. apply parquet_image_bare. unfold columns in Hc.
        now destruct (cols (allele_projection allele_df)).
  - apply (proj2 (loop_files w fs0)), summary_file_fresh.
Qed.

Lemma allele_functions_projection_witness :
  dataframes (snd (run sample_world ∅)) !! "allele" = Some allele_table
  /\ exists f, files (snd (run sample_world ∅)) !! summary_file = Some f
       /\ columns f = ["id"; "genesymbol"; "name"; "functionalstatus"]
       /\ (forall c, getitem f c
                     = if mem c key_cols then getitem allele_table c else NoColumn)
       /\ (columns f <> [] -> len f = 2)
       /\ (columns f = [] -> len f = 0).
Proof.
  apply (allele_functions_projection sample_world ∅ allele_records allele_table).
  - reflexivity.
  - discriminate.
  - reflexivity.
Defined.

(** *** The report *)

Lemma insert_sorted_perm (x : string * DataFrame) (l : list (string * DataFrame)) :
  insert_sorted x l ≡ₚ x :: l.
Proof.
  induction l as [|y l IH]; [reflexivity|]. cbn [insert_sorted].
  destruct (String.leb (fst x) (fst y)); [reflexivity|].
  rewrite IH. apply Permutation_swap.
Qed.

Lemma sorted_files_perm (fs : gmap string DataFrame) : sorted_files fs ≡ₚ map_to_list fs.
Proof.
  unfold sorted_files. induction (map_to_list fs) as [|x l IH]; [reflexivity|].
  cbn [List.fold_right]. now rewrite insert_sorted_perm, IH.
Qed.

Lemma list_sum_perm (l1 l2 : list nat) : l1 ≡ₚ l2 -> list_sum l1 = list_sum l2.
Proof.
  induction 1 as [|x l l' _ IH|x y l|l l' l'' _ IH1 _ IH2]; unfold list_sum in *;
    cbn [List.fold_right] in *; lia.
Qed.

Lemma sorted_files_total (fs : gmap string DataFrame) :
  list_sum (List.map (fun p => len (snd p)) (sorted_files fs)) = total_rows fs
  /\ length (sorted_files fs) = size fs.
Proof.
  split.
  - unfold total_rows. apply list_sum_perm.
    change List.map with (@fmap list _). now rewrite sorted_files_perm.
  - rewrite <- length_map_to_list. now rewrite sorted_files_perm.
Qed.

(** A run that ends normally ends with the total line: the sum of the row
    counts of the files in the directory, and their number. *)
Lemma run_total (w : World) (fs0 : gmap string DataFrame) :
  fst (run w fs0) = Ok tt ->
  last (log (snd (run w fs0)))
  = Some (Total (total_rows (files (snd (run w fs0)))) (size (files (snd (run w fs0))))).
Proof.
  rewrite run_after_loop. unfold after_loop, bind.
  destruct (allele_summary w (loop_state w fs0)) as [[[]|e] st1]; [|discriminate].
  rewrite recommendation_summary_effect. cbv iota beta.
  set (st2 := match dataframes st1 !! "recommendation" with
              | None => st1 | Some _ => _ end).
  destruct (report_effect w st2) as (_ & Hf & Ht).
  intros H. rewrite (Ht H), Hf.
  now destruct (sorted_files_total (files st2)) as [-> ->].
Qed.

(** C7, as stated, fails twice over on [empty_world]: the fetch of [gene]
    succeeds and no gene file is written, and the total of the run counts
    the two rows of a drug file that this run did not write. *)
Lemma drug_failure_counterexample :
  http_get empty_world "drug" = Raise HTTPError
  /\ http_get empty_world "gene" = Ok []
  /\ fst (run empty_world stale_directory) = Ok tt
  /\ files (snd (run empty_world stale_directory)) !! output_file "gene" = None
  /\ map_to_list (files (snd (run empty_world stale_directory)))
     = [("cpic_drug.parquet", stale_drug_table)]
  /\ last (log (snd (run empty_world stale_directory))) = Some (Total 2 1).
Proof. repeat apply conj; vm_compute; reflexivity. Qed.

(** C7, amended: an endpoint whose fetch raises is caught and logged, gets
    no table and no file, and the loop goes on: every other endpoint whose
    fetch returns a non-empty list, whose normalisation returns a table and
    whose table the encoder accepts has that table, as the encoder keeps
    it, as its file.  A run that
    ends normally reports the sum of the row counts of the files in the
    directory; starting from an empty directory these are the files this
    run wrote, none of them the failed endpoint's. *)
Theorem fetch_failure_is_isolated
  (w : World) (fs0 : gmap string DataFrame) (failed endpoint : string) (e : exn) :
  (failed, endpoint) ∈ endpoints ->
  http_get w endpoint = Raise e ->
  (forall st, process_endpoint w failed endpoint st
              = (Ok tt, {| dataframes := dataframes st; files := files st;
                           log := log st ++ [Fetching endpoint; ErrorFetching failed e] |}))
  /\ dataframes (snd (run w fs0)) !! failed = None
  /\ files (snd (run w fs0)) !! output_file failed = fs0 !! output_file failed
  /\ (forall name endpoint' data df,
        (name, endpoint') ∈ endpoints ->
        http_get w endpoint' = Ok data -> data <> [] ->
        normalize data = Ok df ->
        parquet_ok w (output_file name) df = true ->
        files (snd (run w fs0)) !! output_file name = Some (parquet_image df))
  /\ (fst (run w fs0) = Ok tt ->
      last (log (snd (run w fs0)))
      = Some (Total (total_rows (files (snd (run w fs0))))
                    (size (files (snd (run w fs0))))))
  /\ (fs0 = ∅ ->
      forall f df, files (snd (run w fs0)) !! f = Some df ->
        f = summary_file
        \/ exists name endpoint',
             (name, endpoint') ∈ endpoints /\ name <> failed
             /\ f = output_file name /\ written_table w (name, endpoint') = Some df).
Proof.
  intros Hin Hget.
  assert (fetched_table w endpoint = None) as Hft by (unfold fetched_table; now rewrite Hget).
  assert (written_table w (failed, endpoint) = None) as Hwt
    by (unfold written_table; cbn [snd]; now rewrite Hft).
  repeat split.
  - intros st. rewrite process_endpoint_effect, Hft, Hwt.
    unfold endpoint_log. now rewrite Hget.
  - rewrite run_dataframes, (proj1 (loop_dataframes w fs0) _ _ Hin). exact Hft.
  - now rewrite (run_endpoint_file w fs0 _ _ Hin), Hwt.
  - intros name endpoint' data df Hin' Hget' Hne Hnorm Hok.
    rewrite (run_endpoint_file w fs0 _ _ Hin'). unfold written_table. cbn [fst snd].
    now rewrite (fetched_table_ok w _ data Hget' Hne), Hnorm, Hok.
  - apply run_total.
  - intros -> f df Hf.
    destruct (decide (f = summary_file)) as [|Hns]; [now left|right].
    rewrite (run_files w ∅ f Hns) in Hf.
    destruct (decide (f ∈ (fun ne => output_file (fst ne)) <$> endpoints)) as [Hel|Hnel].
    + apply list_elem_of_fmap in Hel as ([name endpoint'] & -> & Hin').
      cbn [fst] in *. exists name, endpoint'.
      rewrite (proj1 (loop_files w ∅) _ _ Hin') in Hf.
      destruct (written_table w (name, endpoint')) as [df'|] eqn:Ew;
        [|now rewrite lookup_empty in Hf].
      injection Hf as ->. repeat split; try assumption.
      intros Heq. pose proof (endpoint_is_name _ _ Hin') as E1.
      pose proof (endpoint_is_name _ _ Hin) as E2. subst. congruence.
    + rewrite (proj2 (loop_files w ∅) f Hnel), lookup_empty in Hf. discriminate.
Qed.

Lemma fetch_failure_is_isolated_witness :
  dataframes (snd (run sample_world ∅)) !! "drug" = None
  /\ files (snd (run sample_world ∅)) !! output_file "drug" = None
  /\ files (snd (run sample_world ∅)) !! output_file "gene" = Some gene_table
  /\ last (log (snd (run sample_world ∅))) = Some (Total 5 3).
Proof.
  destruct (fetch_failure_is_isolated sample_world ∅ "drug" "drug" HTTPError)
    as (_ & Hd & Hf & Hothers & Htotal & _).
  - apply (bool_decide_unpack _). vm_compute. exact I.
  - reflexivity.
  - split; [exact Hd|]. split; [exact Hf|]. split.
    + apply (Hothers "gene" "gene" gene_records gene_table).
      * apply (bool_decide_unpack _). vm_compute. exact I.
      * reflexivity.
      * discriminate.
      * reflexivity.
      * reflexivity.
    + rewrite (Htotal eq_refl). vm_compute. reflexivity.
Defined.

(** C8: the code breaks the claim at the write step.  The table is put
    in [dataframes] (line 78) before it is written (line 82), so an
    endpoint whose write raises keeps its entry, unlike one whose fetch or
    normalisation raises.  On [allele_write_fails] the encoder raises on
    the allele table, the error is caught and logged, no allele file is
    written, and the allele summary block runs all the same and writes
    its file from the table that was never saved. *)
Lemma write_error_keeps_table_entry :
  normalize allele_records = Ok allele_table
  /\ parquet_ok allele_write_fails (output_file "allele") allele_table = false
  /\ dataframes (snd (run allele_write_fails ∅)) !! "allele" = Some allele_table
  /\ files (snd (run allele_write_fails ∅)) !! output_file "allele" = None
  /\ files (snd (run allele_write_fails ∅)) !! summary_file
     = Some (allele_projection allele_table)
  /\ log (snd (run allele_write_fails ∅))
     = [Banner "Downloading CPIC pharmacogenomics data...";
        Fetching "gene"; Retrieved 1; Saved 1 "cpic_gene.parquet";
        Fetching "allele"; Retrieved 2; ErrorFetching "allele" ArrowError;
        Fetching "drug"; ErrorFetching "drug" HTTPError;
        Fetching "guideline"; Retrieved 0;
        Fetching "recommendation"; Retrieved 0;
        Fetching "diplotype"; Retrieved 0;
        Fetching "pair"; Retrieved 0;
        Banner "Creating allele function summary..."; SavedAlleleSummary 2;
        Banner "Output files:";
        FileLine "cpic_allele_functions.parquet" 2 4;
        FileLine "cpic_gene.parquet" 1 2;
        Total 3 2].
Proof. repeat apply conj; vm_compute; reflexivity. Qed.

(** X21: an endpoint at which the fetch or the normalisation raises has
    no entry in [dataframes] and gets no file; when that endpoint is
    [allele], the allele summary block does nothing. *)
Theorem failed_endpoint_has_no_entry
  (w : World) (fs0 : gmap string DataFrame) (name endpoint : string) :
  (name, endpoint) ∈ endpoints ->
  (exists e, http_get w endpoint = Raise e)
  \/ (exists data e, http_get w endpoint = Ok data /\ normalize data = Raise e) ->
  dataframes (snd (run w fs0)) !! name = None
  /\ files (snd (run w fs0)) !! output_file name = fs0 !! output_file name
  /\ (name = "allele" ->
      allele_summary w (loop_state w fs0) = (Ok tt, loop_state w fs0)
      /\ files (snd (run w fs0)) !! summary_file = fs0 !! summary_file).
Proof.
  intros Hin Herr.
  assert (fetched_table w endpoint = None) as Hft.
  { unfold fetched_table. destruct Herr as [[e ->]|(data & e & -> & Hn)]; [reflexivity|].
    destruct data; [reflexivity|]. now rewrite Hn. }
  assert (dataframes (loop_state w fs0) !! name = None) as Hdf
    by (now rewrite (proj1 (loop_dataframes w fs0) _ _ Hin)).
  split; [now rewrite run_dataframes|]. split.
  - rewrite (run_endpoint_file w fs0 _ _ Hin). unfold written_table. cbn [snd].
    now rewrite Hft.
  - intros ->.
    assert (allele_summary w (loop_state w fs0) = (Ok tt, loop_state w fs0)) as Hs
      by (now rewrite allele_summary_effect, Hdf).
    split; [exact Hs|].
    rewrite run_after_loop. destruct (after_loop_effect w (loop_state w fs0)) as [_ ->].
    rewrite Hs. cbn [snd]. apply (proj2 (loop_files w fs0)), summary_file_fresh.
Qed.

Lemma failed_endpoint_has_no_entry_witness :
  dataframes (snd (run offline_world ∅)) !! "allele" = None
  /\ files (snd (run offline_world ∅)) !! output_file "allele" = None
  /\ allele_summary offline_world (loop_state offline_world ∅)
     = (Ok tt, loop_state offline_world ∅)
  /\ files (snd (run offline_world ∅)) !! summary_file = None.
Proof.
  destruct (failed_endpoint_has_no_entry offline_world ∅ "allele" "allele")
    as (Hd & Hf & Hs).
  - apply (bool_decide_unpack _). vm_compute. exact I.
  - left. exists HTTPError. reflexivity.
  - destruct (Hs eq_refl) as [Hs1 Hs2]. auto.
Defined.

(** C9: the recommendation summary block writes no file.  It returns
    normally, leaves the directory and [dataframes] as they are, and prints
    at most its banner and one line; the path it names,
    [cpic_recommendations.parquet], is the same in the directory after
    the run as before it. *)
Theorem recommendation_summary_writes_nothing
  (w : World) (fs0 : gmap string DataFrame) (st : State) :
  fst (recommendation_summary st) = Ok tt
  /\ files (snd (recommendation_summary st)) = files st
  /\ dataframes (snd (recommendation_summary st)) = dataframes st
  /\ log (snd (recommendation_summary st))
     = (log st ++
        match dataframes st !! "recommendation" with
        | Some rec_df => [Banner "Creating recommendation summary...";
                          RecommendationAvailable (len rec_df)]
        | None => []
        end)%list
  /\ files (snd (run w fs0)) !! recommendations_file = fs0 !! recommendations_file.
Proof.
  rewrite recommendation_summary_effect. cbn [fst snd].
  repeat apply conj.
  - reflexivity.
  - now destruct (dataframes st !! "recommendation").
  - now destruct (dataframes st !! "recommendation").
  - destruct (dataframes st !! "recommendation"); [reflexivity|].
    now rewrite List.app_nil_r.
  - pose proof recommendations_file_fresh as Hfresh.
    apply not_elem_of_cons in Hfresh as [Hne Hfresh].
    rewrite (run_files w fs0 _ Hne). now apply loop_files.
Qed.

(** * Further properties of the code *)

(** ** The normalizer: when it returns, and what it keeps *)

Lemma inspect_column_unique (df : DataFrame) (col : string) :
  count_label col (columns df) = 1 -> exists df', inspect_column df col = Ok df'.
Proof.
  unfold columns. rewrite <- length_filter_labelled. intros H.
  unfold inspect_column, getitem.
  destruct (List.filter (labelled col) (cols df)) as [|p [|q l]]; try discriminate.
  destruct (dtype_is_object (snd p)); [|eauto].
  destruct (dropna (snd p)) as [|x rest]; [eauto|].
  destruct (is_dict x); [eauto|]. destruct (is_list x); eauto.
Qed.

Lemma flatten_columns_unique (names : list string) :
  forall df, (forall c, c ∈ names -> count_label c (columns df) = 1) ->
    exists df', flatten_columns names df = Ok df'.
Proof.
  induction names as [|col rest IH]; intros df H; [now exists df|].
  cbn [flatten_columns].
  destruct (inspect_column_unique df col (H col (list_elem_of_here _ _))) as [df1 E1].
  rewrite E1. apply IH. intros c Hc.
  apply inspect_column_ok in E1 as (_ & _ & Hcols).
  unfold columns. rewrite Hcols, map_fst_treat_label.
  apply H. now apply list_elem_of_further.
Qed.

Lemma normalize_returns (data : list record) :
  NoDup (List.map std_name (union_keys data)) -> exists df, normalize data = Ok df.
Proof.
  intros Hnd. unfold normalize. apply flatten_columns_unique.
  intros c Hc. apply NoDup_count_one; [|exact Hc].
  now rewrite columns_standardize, columns_pd_DataFrame.
Qed.

(** X1: the normalizer returns a table exactly when the standard names
    of the keys of the records are pairwise distinct. *)
Theorem normalize_returns_iff_names_distinct (data : list record) :
  (exists df, normalize data = Ok df) <-> NoDup (List.map std_name (union_keys data)).
Proof.
  split.
  - intros [df H]. now apply normalize_ok in H as (_ & <- & ? & _).
  - apply normalize_returns.
Qed.

Lemma normalize_returns_iff_names_distinct_witness :
  exists df, normalize nested_records = Ok df.
Proof.
  apply (proj2 (normalize_returns_iff_names_distinct nested_records)).
  apply (bool_decide_unpack _). vm_compute. exact I.
Defined.


(** X2: a table the normalizer returns is rectangular: it has one row per
    record, one column per distinct key, and every column holds one cell
    per record. *)
Theorem normalize_keeps_shape (data : list record) (df : DataFrame) :
  normalize data = Ok df ->
  len df = length data
  /\ length (cols df) = length (union_keys data)
  /\ List.Forall (fun p => length (snd p) = length data) (cols df).
Proof.
  intros H. apply normalize_ok in H as (Hn & _ & _ & Hcols).
  split; [exact Hn|]. rewrite Hcols. unfold standardize_columns, pd_DataFrame. cbn [cols].
  split; [now rewrite !List.length_map|].
  rewrite !List.Forall_map. apply List.Forall_forall. intros k _. cbn [snd].
  now rewrite length_column_treatment, List.length_map.
Qed.

Lemma normalize_keeps_shape_witness :
  len nested_table = 3
  /\ length (cols nested_table) = 4
  /\ List.Forall (fun p => length (snd p) = 3) (cols nested_table).
Proof. apply (normalize_keeps_shape nested_records nested_table). reflexivity. Defined.


Lemma first_non_null_none (s : Series) :
  first_non_null s = None -> List.forallb isna s = true.
Proof.
  induction s as [|x s IH]; [reflexivity|].
  cbn [first_non_null List.forallb]. destruct (isna x); [exact IH|discriminate].
Qed.

Lemma first_non_null_not_na (s : Series) (x : cell) :
  first_non_null s = Some x -> isna x = false.
Proof.
  rewrite <- first_non_null_dropna. unfold dropna. intros H.
  destruct (List.filter _ s) as [|y l] eqn:E; [discriminate|]. injection H as ->.
  assert (In x (List.filter (fun x => negb (isna x)) s)) as Hin by (rewrite E; now left).
  apply List.filter_In in Hin as [_ Hin]. now destruct (isna x).
Qed.

Lemma na_not_nested (x : cell) : isna x = true -> is_nested x = false.
Proof. unfold is_nested. destruct x as [|[]]; simpl; intros; congruence. Qed.

Lemma forallb_In {A} (f : A -> bool) (l : list A) (x : A) :
  List.forallb f l = true -> In x l -> f x = true.
Proof. intros H. now apply List.forallb_forall. Qed.

(** A column whose non-null cells are all of one nested kind, or all
    scalars, leaves the normalizer without a dict or a list in it. *)
Lemma column_treatment_uniform (s : Series) :
  List.forallb (fun x => isna x || is_dict x) s = true
  \/ List.forallb (fun x => isna x || is_list x) s = true
  \/ List.forallb (fun x => negb (is_nested x)) s = true ->
  List.forallb (fun y => negb (is_nested y)) (column_treatment s) = true.
Proof.
  intros H. unfold column_treatment.
  destruct (first_non_null s) as [sample|] eqn:E.
  - pose proof (first_non_null_not_na s sample E) as Hna.
    pose proof (first_non_null_In s sample E) as Hin.
    destruct H as [H|[H|H]].
    + pose proof (forallb_In _ _ _ H Hin) as Hs. cbv beta in Hs. rewrite Hna in Hs.
      cbn [orb] in Hs. rewrite Hs. apply List.forallb_forall. intros y Hy.
      apply List.in_map_iff in Hy as (x & <- & Hx).
      pose proof (forallb_In _ _ _ H Hx) as Hx'. cbv beta in Hx'. unfold serialize_if.
      destruct (is_dict x); [reflexivity|]. rewrite orb_false_r in Hx'.
      now rewrite (na_not_nested x Hx').
    + pose proof (forallb_In _ _ _ H Hin) as Hs. cbv beta in Hs. rewrite Hna in Hs.
      cbn [orb] in Hs.
      assert (is_dict sample = false) as -> by (destruct sample as [|[]]; simpl in *; congruence).
      rewrite Hs. apply List.forallb_forall. intros y Hy.
      apply List.in_map_iff in Hy as (x & <- & Hx).
      pose proof (forallb_In _ _ _ H Hx) as Hx'. cbv beta in Hx'. unfold serialize_if.
      destruct (is_list x); [reflexivity|]. rewrite orb_false_r in Hx'.
      now rewrite (na_not_nested x Hx').
    + pose proof (forallb_In _ _ _ H Hin) as Hs. cbv beta in Hs. unfold is_nested in Hs.
      apply negb_true_iff, orb_false_iff in Hs as [-> ->]. exact H.
  - destruct H as [H|[H|H]]; [| |exact H];
      apply List.forallb_forall; intros x Hx;
      now rewrite (na_not_nested x (forallb_In _ _ _ (first_non_null_none s E) Hx)).
Qed.

(** X4: a column whose non-null source cells are all dicts, or all lists,
    or all scalars is free of dicts and lists in the returned table (a
    column that mixes kinds may keep nested cells). *)
Theorem uniform_column_becomes_scalar
  (data : list record) (df : DataFrame) (j : nat) (col : string) (s0 : Series) :
  normalize data = Ok df ->
  cols (standardize_columns (pd_DataFrame data)) !! j = Some (col, s0) ->
  List.forallb (fun x => isna x || is_dict x) s0 = true
  \/ List.forallb (fun x => isna x || is_list x) s0 = true
  \/ List.forallb (fun x => negb (is_nested x)) s0 = true ->
  exists s, cols df !! j = Some (col, s)
    /\ List.forallb (fun y => negb (is_nested y)) s = true.
Proof.
  intros H Hj Hu. apply normalize_ok in H as (_ & _ & _ & Hcols).
  exists (column_treatment s0). split.
  - rewrite Hcols, lookup_map, Hj. reflexivity.
  - now apply column_treatment_uniform.
Qed.

Lemma uniform_column_becomes_scalar_witness :
  exists s, cols nested_table !! 1%nat = Some ("function", s)
    /\ List.forallb (fun y => negb (is_nested y)) s = true.
Proof.
  apply (uniform_column_becomes_scalar nested_records nested_table 1 "function"
           [Obj (PDict [("status", PStr "normal"); ("value", PInt 1)]); Obj PNone;
            Obj (PDict [])]).
  - reflexivity.
  - reflexivity.
  - left. reflexivity.
Defined.

Lemma dropna_serialize (kind : cell -> bool) (s : Series) :
  (forall x, kind x = true -> isna x = false) ->
  dropna (List.map (serialize_if kind) s) = List.map (serialize_if kind) (dropna s).
Proof.
  intros Hk. unfold dropna. induction s as [|x s IH]; [reflexivity|].
  cbn [List.map List.filter]. rewrite IH.
  assert (isna (serialize_if kind x) = isna x) as ->; [|now destruct (isna x)].
  unfold serialize_if. destruct (kind x) eqn:E; [|reflexivity].
  now rewrite (Hk x E).
Qed.

Lemma dict_not_na (x : cell) : is_dict x = true -> isna x = false.
Proof. destruct x as [|[]]; simpl; intros; congruence. Qed.

Lemma list_not_na (x : cell) : is_list x = true -> isna x = false.
Proof. destruct x as [|[]]; simpl; intros; congruence. Qed.

Lemma first_non_null_serialize (kind : cell -> bool) (s : Series) :
  (forall x, kind x = true -> isna x = false) ->
  first_non_null (List.map (serialize_if kind) s)
  = option_map (serialize_if kind) (first_non_null s).
Proof.
  intros Hk. rewrite <- !first_non_null_dropna, (dropna_serialize kind s Hk).
  now destruct (dropna s).
Qed.

Lemma serialized_is_scalar (kind : cell -> bool) (x : cell) :
  kind x = true ->
  is_dict (serialize_if kind x) = false /\ is_list (serialize_if kind x) = false.
Proof. intros H. unfold serialize_if. rewrite H. split; reflexivity. Qed.

(** Treating a treated column changes nothing: its first sample is a
    scalar by then. *)
Lemma column_treatment_idem (s : Series) :
  column_treatment (column_treatment s) = column_treatment s.
Proof.
  destruct (first_non_null s) as [x|] eqn:E.
  - destruct (is_dict x) eqn:D; [|destruct (is_list x) eqn:L].
    + assert (column_treatment s = List.map (serialize_if is_dict) s) as ->
        by (unfold column_treatment; now rewrite E, D).
      unfold column_treatment.
      rewrite (first_non_null_serialize is_dict s dict_not_na), E. cbn [option_map].
      now destruct (serialized_is_scalar is_dict x D) as [-> ->].
    + assert (column_treatment s = List.map (serialize_if is_list) s) as ->
        by (unfold column_treatment; now rewrite E, D, L).
      unfold column_treatment.
      rewrite (first_non_null_serialize is_list s list_not_na), E. cbn [option_map].
      now destruct (serialized_is_scalar is_list x L) as [-> ->].
    + assert (column_treatment s = s) as ->
        by (unfold column_treatment; now rewrite E, D, L).
      unfold column_treatment. now rewrite E, D, L.
  - assert (column_treatment s = s) as -> by (unfold column_treatment; now rewrite E).
    unfold column_treatment. now rewrite E.
Qed.

(** X5: the flattening pass is stable: run once more over a table the
    normalizer returned, it returns that table unchanged. *)
Theorem normalize_is_stable (data : list record) (df : DataFrame) :
  normalize data = Ok df -> flatten_columns (columns df) df = Ok df.
Proof.
  intros H. apply normalize_ok in H as (_ & _ & Hnd & Hcols).
  destruct (flatten_columns_unique (columns df) df) as [df' E].
  { intros c Hc. now apply NoDup_count_one. }
  rewrite E. f_equal.
  destruct (flatten_columns_ok _ _ _ E) as (Hn & _ & _ & Hmap).
  destruct df as [n cs], df' as [n' cs']. cbn [nrows cols columns] in *. f_equal; [exact Hn|].
  rewrite (Hmap Hnd). transitivity (List.map (fun x => x) cs); [|apply List.map_id].
  apply List.map_ext_in.
  intros q Hq. unfold treat_labels, columns. cbn [cols].
  assert (mem (fst q) (List.map fst cs) = true) as ->
    by (apply mem_true_iff, list_elem_of_In; now apply List.in_map).
  rewrite Hcols in Hq. apply List.in_map_iff in Hq as (q0 & <- & _). cbn [fst snd].
  now rewrite column_treatment_idem.
Qed.

Lemma normalize_is_stable_witness :
  flatten_columns (columns nested_table) nested_table = Ok nested_table.
Proof. apply (normalize_is_stable nested_records nested_table). reflexivity. Defined.

(** ** The two flatteners *)

Lemma getitem_setitem_ne (df : DataFrame) (col c : string) (s : Series) :
  c <> col -> getitem (setitem df col s) c = getitem df c.
Proof.
  intros Hne. unfold getitem, setitem. cbn [cols].
  assert (List.filter (labelled c)
            (List.map (fun p => if labelled col p then (fst p, s) else p) (cols df))
          = List.filter (labelled c) (cols df)) as ->; [|reflexivity].
  induction (cols df) as [|p l IH]; [reflexivity|]. cbn [List.map List.filter].
  destruct (labelled col p) eqn:Ecol.
  - unfold labelled in *. cbn [fst]. apply String.eqb_eq in Ecol.
    assert (String.eqb (fst p) c = false) as ->; [|exact IH].
    apply String.eqb_neq. congruence.
  - now rewrite IH.
Qed.

Lemma getitem_apply_column_ne (f : cell -> cell) (df : DataFrame) (col c : string) :
  c <> col -> getitem (apply_column f df col) c = getitem df c.
Proof.
  intros Hne. unfold apply_column.
  destruct (getitem df col); auto using getitem_setitem_ne.
Qed.

Lemma lengths_setitem (df : DataFrame) (col : string) (s s' : Series) :
  getitem df col = OneSeries s -> length s' = length s ->
  List.map (fun p => length (snd p)) (cols (setitem df col s'))
  = List.map (fun p => length (snd p)) (cols df).
Proof.
  unfold getitem, setitem. cbn [cols]. intros Hg Hl. rewrite List.map_map.
  destruct (List.filter (labelled col) (cols df)) as [|p [|q l]] eqn:Hf; try discriminate.
  injection Hg as <-. apply List.map_ext_in. intros q Hq.
  destruct (labelled col q) eqn:E; [|reflexivity].
  cbn [snd]. now rewrite (filter_singleton _ _ _ _ Hf Hq E).
Qed.

Lemma apply_column_shape (f : cell -> cell) (df : DataFrame) (col : string) :
  columns (apply_column f df col) = columns df
  /\ nrows (apply_column f df col) = nrows df
  /\ List.map (fun p => length (snd p)) (cols (apply_column f df col))
     = List.map (fun p => length (snd p)) (cols df).
Proof.
  split; [apply columns_apply_column|]. unfold apply_column.
  destruct (getitem df col) as [|s|ss] eqn:E; try (split; reflexivity).
  split; [reflexivity|]. apply (lengths_setitem df col s _ E), List.length_map.
Qed.

(** X6: a flattener keeps the shape of the frame: the labels, the row
    count and the length of every column stay, and so does every column
    under another label. *)
Theorem flatten_keeps_shape (df : DataFrame) (col : string) :
  (columns (flatten_dict_column df col) = columns df
   /\ nrows (flatten_dict_column df col) = nrows df
   /\ List.map (fun p => length (snd p)) (cols (flatten_dict_column df col))
      = List.map (fun p => length (snd p)) (cols df)
   /\ forall c, c <> col -> getitem (flatten_dict_column df col) c = getitem df c)
  /\ (columns (flatten_list_column df col) = columns df
      /\ nrows (flatten_list_column df col) = nrows df
      /\ List.map (fun p => length (snd p)) (cols (flatten_list_column df col))
         = List.map (fun p => length (snd p)) (cols df)
      /\ forall c, c <> col -> getitem (flatten_list_column df col) c = getitem df c).
Proof.
  unfold flatten_dict_column, flatten_list_column.
  destruct (mem col (columns df)); [|repeat split; reflexivity].
  split.
  - destruct (apply_column_shape
                (fun x => if is_dict x then Obj (PStr (Json.dumps_cell x)) else x) df col)
      as (H1 & H2 & H3).
    repeat split; try assumption. intros c Hc. now apply getitem_apply_column_ne.
  - destruct (apply_column_shape
                (fun x => if is_list x then Obj (PStr (Json.dumps_cell x)) else x) df col)
      as (H1 & H2 & H3).
    repeat split; try assumption. intros c Hc. now apply getitem_apply_column_ne.
Qed.

Lemma flatten_keeps_shape_witness :
  getitem (flatten_dict_column (pd_DataFrame nested_records) "Function") "Mixed"
  = getitem (pd_DataFrame nested_records) "Mixed".
Proof.
  apply (flatten_keeps_shape (pd_DataFrame nested_records) "Function"). discriminate.
Defined.

Lemma getitem_mem (df : DataFrame) (col : string) (s : Series) :
  getitem df col = OneSeries s -> mem col (columns df) = true.
Proof.
  unfold getitem. intros H.
  destruct (List.filter (labelled col) (cols df)) as [|p [|q l]] eqn:Hf; try discriminate.
  destruct (filter_singleton_In _ _ _ Hf) as [Hin Hl].
  exact (mem_columns_labelled df col p Hin Hl).
Qed.

Lemma getitem_apply_column (f : cell -> cell) (df : DataFrame) (col : string) (s : Series) :
  getitem df col = OneSeries s ->
  getitem (apply_column f df col) col = OneSeries (List.map f s).
Proof.
  intros H. unfold apply_column. rewrite H. now apply (getitem_setitem df col s).
Qed.


Lemma setitem_comm (df : DataFrame) (c1 c2 : string) (s1 s2 : Series) :
  c1 <> c2 ->
  setitem (setitem df c1 s1) c2 s2 = setitem (setitem df c2 s2) c1 s1.
Proof.
  intros Hne. unfold setitem. cbn [cols nrows]. f_equal. rewrite !List.map_map.
  apply List.map_ext. intros p. unfold labelled.
  destruct (String.eqb (fst p) c1) eqn:E1; destruct (String.eqb (fst p) c2) eqn:E2;
    cbn [fst]; rewrite ?E1, ?E2; try reflexivity.
  apply String.eqb_eq in E1, E2. congruence.
Qed.

Lemma apply_column_eq (f : cell -> cell) (df : DataFrame) (col : string) :
  apply_column f df col
  = match getitem df col with
    | OneSeries s => setitem df col (List.map f s)
    | _ => df
    end.
Proof. reflexivity. Qed.

Lemma apply_column_comm (f g : cell -> cell) (df : DataFrame) (c1 c2 : string) :
  (forall x, f (g x) = g (f x)) ->
  apply_column f (apply_column g df c1) c2 = apply_column g (apply_column f df c2) c1.
Proof.
  intros Hfg.
  rewrite (apply_column_eq f (apply_column g df c1) c2),
          (apply_column_eq g (apply_column f df c2) c1).
  destruct (String.eqb_spec c1 c2) as [->|Hne].
  - destruct (getitem df c2) as [|s|ss] eqn:E.
    + rewrite !apply_column_eq, E. now rewrite E.
    + rewrite (getitem_apply_column g df c2 s E), (getitem_apply_column f df c2 s E).
      rewrite !apply_column_eq, E, !setitem_setitem. f_equal.
      rewrite !List.map_map. apply List.map_ext, Hfg.
    + rewrite !apply_column_eq, E. now rewrite E.
  - assert (c2 <> c1) as Hne' by congruence.
    rewrite (getitem_apply_column_ne g df c1 c2 Hne'),
            (getitem_apply_column_ne f df c2 c1 Hne).
    rewrite !apply_column_eq.
    destruct (getitem df c1) as [|s1|ss1]; destruct (getitem df c2) as [|s2|ss2];
      try reflexivity.
    now apply setitem_comm.
Qed.

(** X8: the two flatteners commute, on one label or on two. *)
Theorem flatten_dict_list_commute (df : DataFrame) (c1 c2 : string) :
  flatten_dict_column (flatten_list_column df c1) c2
  = flatten_list_column (flatten_dict_column df c2) c1.
Proof.
  unfold flatten_dict_column, flatten_list_column.
  destruct (mem c1 (columns df)) eqn:M1; destruct (mem c2 (columns df)) eqn:M2;
    rewrite ?columns_apply_column, ?M1, ?M2; try reflexivity.
  apply apply_column_comm. intros [|[]]; reflexivity.
Qed.

(** ** The standard name *)

Module StdNameFacts.
Import PyStr.

Lemma lstrip_no_space (s : string) :
  (forall c, first_char s = Some c -> isspace c = false) -> lstrip s = s.
Proof.
  destruct s as [|a r]; [reflexivity|]. intros H. cbn [lstrip].
  now rewrite (H a eq_refl).
Qed.

Lemma rstrip_no_space (s : string) :
  (forall c, last_char s = Some c -> isspace c = false) -> rstrip s = s.
Proof.
  induction s as [|a r IH]; [reflexivity|]. intros H. cbn [rstrip].
  cbn [last_char] in H. destruct (last_char r) as [b|] eqn:E.
  - rewrite (IH H). destruct r; [discriminate|reflexivity].
  - destruct r as [|b r']; [|cbn [last_char] in E; destruct (last_char r'); discriminate].
    cbn [rstrip]. now rewrite (H a eq_refl).
Qed.

Lemma first_char_smap (f : ascii -> ascii) (s : string) :
  first_char (smap f s) = option_map f (first_char s).
Proof. now destruct s. Qed.

Lemma last_char_smap (f : ascii -> ascii) (s : string) :
  last_char (smap f s) = option_map f (last_char s).
Proof.
  induction s as [|a r IH]; [reflexivity|]. cbn [smap last_char]. rewrite IH.
  now destruct (last_char r).
Qed.

Lemma isspace_lower_char (c : ascii) : isspace (lower_char c) = isspace c.
Proof. destruct c as [[] [] [] [] [] [] [] []]; reflexivity. Qed.

Lemma smap_id (f : ascii -> ascii) (p : ascii -> bool) (s : string) :
  (forall c, p c = false -> f c = c) -> sexists p s = false -> smap f s = s.
Proof.
  intros Hf. induction s as [|a r IH]; [reflexivity|]. cbn [sexists smap].
  intros H. apply orb_false_iff in H as [Ha Hr]. now rewrite (Hf a Ha), (IH Hr).
Qed.

Lemma lower_char_id (c : ascii) : isupper c = false -> lower_char c = c.
Proof. unfold lower_char. now intros ->. Qed.

(** The characters of a standard name at either end are no whitespace. *)
Lemma std_name_ends (k : string) :
  (forall c, first_char (std_name k) = Some c -> isspace c = false)
  /\ (forall c, last_char (std_name k) = Some c -> isspace c = false).
Proof.
  destruct (PyStrFacts.strip_spec k) as (_ & _ & _ & _ & _ & Hfirst & Hlast).
  assert (forall c, isspace c = false ->
            isspace (if Ascii.eqb (if Ascii.eqb (lower_char c) " " then "_"%char
                                   else lower_char c) "-"
                     then "_"%char
                     else if Ascii.eqb (lower_char c) " " then "_"%char else lower_char c)
            = false) as Hchar
    by (intros c; destruct c as [[] [] [] [] [] [] [] []]; intros H;
        try discriminate H; reflexivity).
  unfold std_name, replace, lower. split; intros c.
  - rewrite !first_char_smap. destruct (first_char (strip k)) as [a|]; [|discriminate].
    cbn [option_map]. intros [= <-]. apply Hchar, Hfirst. reflexivity.
  - rewrite !last_char_smap. destruct (last_char (strip k)) as [a|]; [|discriminate].
    cbn [option_map]. intros [= <-]. apply Hchar, Hlast. reflexivity.
Qed.

End StdNameFacts.

(** X9: standardising a column name twice is standardising it once. *)
Theorem std_name_idempotent (k : string) : std_name (std_name k) = std_name k.
Proof.
  destruct (StdNameFacts.std_name_ends k) as [Hfirst Hlast].
  pose proof (std_name_no_upper k) as Hup.
  pose proof (std_name_no_space k) as Hsp.
  pose proof (std_name_no_hyphen k) as Hhy.
  set (n := std_name k) in *. unfold std_name at 1.
  assert (PyStr.strip n = n) as ->.
  { unfold PyStr.strip. rewrite (StdNameFacts.lstrip_no_space n Hfirst).
    now apply StdNameFacts.rstrip_no_space. }
  assert (PyStr.lower n = n) as ->
    by (apply (StdNameFacts.smap_id _ PyStr.isupper);
        [apply StdNameFacts.lower_char_id|exact Hup]).
  assert (PyStr.replace " " "_" n = n) as ->.
  { apply (StdNameFacts.smap_id _ (fun a => Ascii.eqb a " ")).
    - now intros c ->.
    - now rewrite <- PyStrFacts.contains_sexists. }
  apply (StdNameFacts.smap_id _ (fun a => Ascii.eqb a "-")).
  - now intros c ->.
  - now rewrite <- PyStrFacts.contains_sexists.
Qed.

(** ** What a run prints *)

Lemma fold_endpoint_log (w : World) (l : list (string * string)) (st : State) :
  log (fold_left (endpoint_step w) l st)
  = (log st ++ List.concat (List.map (fun ne => endpoint_log w (fst ne) (snd ne)) l))%list.
Proof.
  revert st. induction l as [|ne l IH]; intros st; cbn [fold_left List.map List.concat].
  - now rewrite List.app_nil_r.
  - rewrite IH. unfold endpoint_step. rewrite process_endpoint_effect. cbn [snd log].
    now rewrite <- List.app_assoc.
Qed.

Lemma loop_log (w : World) (fs0 : gmap string DataFrame) :
  log (loop_state w fs0)
  = Banner "Downloading CPIC pharmacogenomics data..."
    :: List.concat (List.map (fun ne => endpoint_log w (fst ne) (snd ne)) endpoints).
Proof. rewrite loop_state_eq, fold_endpoint_log. reflexivity. Qed.

Lemma read_back_log (w : World) (l : list (string * DataFrame)) :
  forall total st,
    exists k, log (snd (read_back w l total st))
              = (log st ++ List.map file_line (take k l))%list
      /\ (forall t, fst (read_back w l total st) = Ok t -> take k l = l)
      /\ (forall e, fst (read_back w l total st) = Raise e ->
            e = ArrowError /\ exists p, In p l /\ read_ok w (fst p) = false).
Proof.
  induction l as [|[f df] l IH]; intros total st.
  - exists 0. cbn. rewrite List.app_nil_r. repeat split; discriminate.
  - cbn [read_back]. destruct (read_ok w f) eqn:R.
    + rewrite bind_print.
      destruct (IH (total + len df)
                   {| dataframes := dataframes st; files := files st;
                      log := log st ++ [FileLine f (len df) (length (columns df))] |})
        as (k & Hlog & Hok & Herr).
      exists (S k). rewrite Hlog. cbn [log take List.map]. split; [|split].
      * now rewrite <- List.app_assoc.
      * intros t Ht. now rewrite (Hok t Ht).
      * intros e He. destruct (Herr e He) as (-> & p & Hp & Hr).
        split; [reflexivity|]. exists p. split; [now right|exact Hr].
    + exists 0. cbn. rewrite List.app_nil_r. split; [reflexivity|]. split; [discriminate|].
      intros e' He'. split.
      * now injection He' as <-.
      * exists (f, df). split; [now left|exact R].
Qed.

Lemma forallb_app_true {A} (f : A -> bool) (l1 l2 : list A) :
  List.forallb f l1 = true -> List.forallb f l2 = true -> List.forallb f (l1 ++ l2) = true.
Proof. intros H1 H2. now rewrite List.forallb_app, H1, H2. Qed.

Lemma file_lines_after_loop (l : list (string * DataFrame)) :
  List.forallb after_loop_event (List.map file_line l) = true.
Proof. induction l as [|p l IH]; [reflexivity|exact IH]. Qed.

(** After the loop only banners, the two summary lines, file lines and
    the total are printed. *)
Lemma after_loop_log (w : World) (st : State) :
  exists tail, log (snd (after_loop w st)) = (log st ++ tail)%list
    /\ List.forallb after_loop_event tail = true.
Proof.
  unfold after_loop, bind. rewrite allele_summary_effect.
  set (a := match dataframes st !! "allele" with Some _ => _ | None => _ end).
  assert (exists t1, log (snd a) = (log st ++ t1)%list
            /\ List.forallb after_loop_event t1 = true) as (t1 & Hl1 & Ht1).
  { subst a. destruct (dataframes st !! "allele") as [t|].
    - destruct (parquet_ok w summary_file (allele_projection t)); eexists; split;
        reflexivity.
    - exists []. split; [now rewrite List.app_nil_r|reflexivity]. }
  destruct a as [[[]|e] st1]; cbn [snd] in *; [|now exists t1].
  rewrite recommendation_summary_effect. cbv iota beta.
  set (st2 := match dataframes st1 !! "recommendation" with
              | None => st1 | Some _ => _ end).
  assert (exists t2, log st2 = (log st1 ++ t2)%list
            /\ List.forallb after_loop_event t2 = true) as (t2 & Hl2 & Ht2).
  { subst st2. destruct (dataframes st1 !! "recommendation").
    - eexists. split; reflexivity.
    - exists []. split; [now rewrite List.app_nil_r|reflexivity]. }
  unfold report. rewrite bind_print. unfold bind. cbn [files].
  destruct (read_back_log w (sorted_files (files st2)) 0
              {| dataframes := dataframes st2; files := files st2;
                 log := log st2 ++ [Banner "Output files:"] |}) as (k & Hlog & _ & _).
  cbn [log] in Hlog.
  destruct (read_back w (sorted_files (files st2)) 0 _) as [[t|e] st3]; cbn [snd] in *.
  - exists (t1 ++ t2 ++ [Banner "Output files:"]
              ++ List.map file_line (take k (sorted_files (files st2)))
              ++ [Total t (length (sorted_files (files st2)))])%list.
    split.
    + unfold print. cbn [snd log]. rewrite Hlog, Hl2, Hl1.
      now rewrite <- !List.app_assoc.
    + repeat apply forallb_app_true; auto using file_lines_after_loop.
  - exists (t1 ++ t2 ++ [Banner "Output files:"]
              ++ List.map file_line (take k (sorted_files (files st2))))%list.
    split.
    + rewrite Hlog, Hl2, Hl1. now rewrite <- !List.app_assoc.
    + repeat apply forallb_app_true; auto using file_lines_after_loop.
Qed.

(** The lines of the loop in the output of a run. *)
Lemma run_log_loop_event (w : World) (fs0 : gmap string DataFrame) (e : event) :
  after_loop_event e = false ->
  In e (log (snd (run w fs0))) <->
  exists name endpoint, (name, endpoint) ∈ endpoints /\ In e (endpoint_log w name endpoint).
Proof.
  intros He. rewrite run_after_loop.
  destruct (after_loop_log w (loop_state w fs0)) as (tail & -> & Htail).
  rewrite loop_log. split.
  - intros H. apply List.in_app_or in H as [[<-|H]|H].
    + discriminate.
    + apply List.in_concat in H as (evs & Hevs & Hin).
      apply List.in_map_iff in Hevs as ([name endpoint] & <- & Hne).
      exists name, endpoint. split; [now apply list_elem_of_In|exact Hin].
    + rewrite (forallb_In _ _ _ Htail H) in He. discriminate.
  - intros (name & endpoint & Hne & Hin). apply List.in_or_app. left. right.
    apply List.in_concat. exists (endpoint_log w name endpoint). split; [|exact Hin].
    apply List.in_map_iff. exists (name, endpoint). split; [reflexivity|].
    now apply list_elem_of_In.
Qed.

Lemma append_inv_tail (s s' t : string) : s ++ t = s' ++ t -> s = s'.
Proof.
  revert s'. induction s as [|a s IH]; intros [|b s'] H.
  - reflexivity.
  - apply (f_equal String.length) in H. rewrite !JsonFacts.length_append in H.
    simpl in H. lia.
  - apply (f_equal String.length) in H. rewrite !JsonFacts.length_append in H.
    simpl in H. lia.
  - rewrite !JsonFacts.append_cons in H. injection H as -> H. f_equal. now apply IH.
Qed.

Lemma output_file_inj (n1 n2 : string) : output_file n1 = output_file n2 -> n1 = n2.
Proof.
  unfold output_file. intros H.
  rewrite !JsonFacts.append_cons in H. injection H as H.
  change (EmptyString ++ ?x) with x in H. now apply append_inv_tail in H.
Qed.

Lemma not_in_run_outputs (f : string) :
  ~ In f run_outputs ->
  f <> summary_file /\ f ∉ (fun ne => output_file (fst ne)) <$> endpoints.
Proof.
  unfold run_outputs. intros H. split.
  - intros ->. apply H. now left.
  - intros Hin. apply H. right. apply list_elem_of_In in Hin. exact Hin.
Qed.

(** X12: a run writes inside the directory only the seven endpoint files
    and the allele summary file; every other file is after the run what it
    was before. *)
Theorem run_writes_only_its_outputs
  (w : World) (fs0 : gmap string DataFrame) (f : string) :
  ~ In f run_outputs -> files (snd (run w fs0)) !! f = fs0 !! f.
Proof.
  intros H. apply not_in_run_outputs in H as [Hne Hout].
  rewrite (run_files w fs0 f Hne). now apply loop_files.
Qed.

Lemma run_writes_only_its_outputs_witness :
  files (snd (run sample_world stale_directory)) !! "notes.parquet"
  = stale_directory !! "notes.parquet".
Proof.
  apply (run_writes_only_its_outputs sample_world stale_directory "notes.parquet").
  intros H. vm_compute in H. repeat (destruct H as [H|H]; [discriminate H|]). exact H.
Defined.

Lemma endpoint_log_saved (w : World) (name endpoint : string) (n : nat) (path : string) :
  In (Saved n path) (endpoint_log w name endpoint) ->
  path = output_file name
  /\ exists df, written_table w (name, endpoint) = Some (parquet_image df) /\ len df = n.
Proof.
  unfold endpoint_log, written_table, fetched_table. cbn [fst snd].
  destruct (http_get w endpoint) as [[|r data]|e].
  - intros [H|[H|[]]]; discriminate.
  - destruct (normalize (r :: data)) as [df|e].
    + destruct (parquet_ok w (output_file name) df).
      * intros [H|[H|[H|[]]]]; try discriminate. injection H as <- <-. eauto.
      * intros [H|[H|[H|[]]]]; discriminate.
    + intros [H|[H|[H|[]]]]; discriminate.
  - intros [H|[H|[]]]; discriminate.
Qed.

(** X13: the line [Saved n records to path] names a file that is there at
    the end of the run.  The file holds the [n] rows the line announces
    when it has a column; a file without columns holds no row, whatever
    the line says. *)
Theorem saved_line_names_a_file
  (w : World) (fs0 : gmap string DataFrame) (n : nat) (path : string) :
  In (Saved n path) (log (snd (run w fs0))) ->
  exists f, files (snd (run w fs0)) !! path = Some f
    /\ (columns f <> [] -> len f = n)
    /\ (columns f = [] -> len f = 0).
Proof.
  intros H. apply (run_log_loop_event w fs0 (Saved n path) eq_refl) in H
    as (name & endpoint & Hne & Hin).
  apply endpoint_log_saved in Hin as (-> & df & Hw & Hlen).
  exists (parquet_image df).
  split; [now rewrite (run_endpoint_file w fs0 _ _ Hne), Hw|].
  rewrite parquet_image_columns. split.
  - intros Hc. rewrite parquet_image_cols; [exact Hlen|].
    intros E. apply Hc. unfold columns. now rewrite E.
  - intros Hc. apply parquet_image_bare. unfold columns in Hc. now destruct (cols df).
Qed.

Lemma saved_line_names_a_file_witness :
  exists f, files (snd (run sample_world ∅)) !! "cpic_allele.parquet" = Some f
    /\ (columns f <> [] -> len f = 2)
    /\ (columns f = [] -> len f = 0).
Proof.
  apply (saved_line_names_a_file sample_world ∅ 2 "cpic_allele.parquet").
  vm_compute. auto 10.
Defined.

Lemma endpoint_log_error (w : World) (name endpoint n : string) (e : exn) :
  In (ErrorFetching n e) (endpoint_log w name endpoint) <->
  n = name /\ endpoint_error w name endpoint = Some e.
Proof.
  unfold endpoint_log, endpoint_error.
  destruct (http_get w endpoint) as [[|r data]|e0].
  - split; [intros [H|[H|[]]]; discriminate|intros [_ H]; discriminate].
  - destruct (normalize (r :: data)) as [df|e0].
    + destruct (parquet_ok w (output_file name) df).
      * split; [intros [H|[H|[H|[]]]]; discriminate|intros [_ H]; discriminate].
      * split.
        -- intros [H|[H|[H|[]]]]; try discriminate. now injection H as <- <-.
        -- intros [-> [= <-]]. right. right. now left.
    + split.
      * intros [H|[H|[H|[]]]]; try discriminate. now injection H as <- <-.
      * intros [-> [= <-]]. right. right. now left.
  - split.
    + intros [H|[H|[]]]; try discriminate. now injection H as <- <-.
    + intros [-> [= <-]]. right. now left.
Qed.

(** X14: the error lines of a run are exactly the failures of the loop: a
    line for an endpoint with an exception is printed if and only if the
    fetch, the normalisation or the write of that endpoint raised it. *)
Theorem error_line_iff_endpoint_failed
  (w : World) (fs0 : gmap string DataFrame) (name : string) (e : exn) :
  In (ErrorFetching name e) (log (snd (run w fs0))) <->
  exists endpoint, (name, endpoint) ∈ endpoints /\ endpoint_error w name endpoint = Some e.
Proof.
  rewrite (run_log_loop_event w fs0 (ErrorFetching name e) eq_refl). split.
  - intros (name' & endpoint & Hne & Hin).
    apply endpoint_log_error in Hin as [-> Herr]. eauto.
  - intros (endpoint & Hne & Herr). exists name, endpoint. split; [exact Hne|].
    now apply endpoint_log_error.
Qed.

Lemma error_line_iff_endpoint_failed_witness :
  In (ErrorFetching "drug" HTTPError) (log (snd (run sample_world ∅))).
Proof.
  apply (proj2 (error_line_iff_endpoint_failed sample_world ∅ "drug" HTTPError)).
  exists "drug". split; [|reflexivity].
  apply (bool_decide_unpack _). vm_compute. exact I.
Defined.

(** X15: an endpoint whose fetch returns an empty list is skipped without
    a trace: no table is stored for it, its file is left as it was, and the
    run prints neither a saved line nor an error line for it. *)
Theorem empty_response_is_skipped
  (w : World) (fs0 : gmap string DataFrame) (name endpoint : string) :
  (name, endpoint) ∈ endpoints ->
  http_get w endpoint = Ok [] ->
  dataframes (snd (run w fs0)) !! name = None
  /\ files (snd (run w fs0)) !! output_file name = fs0 !! output_file name
  /\ (forall e, ~ In (ErrorFetching name e) (log (snd (run w fs0))))
  /\ (forall n, ~ In (Saved n (output_file name)) (log (snd (run w fs0)))).
Proof.
  intros Hne Hget.
  assert (fetched_table w endpoint = None) as Hft by (unfold fetched_table; now rewrite Hget).
  assert (forall endpoint', (name, endpoint') ∈ endpoints -> endpoint' = endpoint) as Hsame.
  { intros endpoint' H'. now rewrite (endpoint_is_name _ _ H'), (endpoint_is_name _ _ Hne). }
  repeat split.
  - rewrite run_dataframes, (proj1 (loop_dataframes w fs0) _ _ Hne). exact Hft.
  - rewrite (run_endpoint_file w fs0 _ _ Hne). unfold written_table. cbn [snd].
    now rewrite Hft.
  - intros e H. apply (run_log_loop_event w fs0 (ErrorFetching name e) eq_refl) in H
      as (name' & endpoint' & Hne' & Hin).
    apply endpoint_log_error in Hin as [<- Herr]. rewrite (Hsame _ Hne') in Herr.
    unfold endpoint_error in Herr. rewrite Hget in Herr. discriminate.
  - intros n H. apply (run_log_loop_event w fs0 (Saved n (output_file name)) eq_refl) in H
      as (name' & endpoint' & Hne' & Hin).
    apply endpoint_log_saved in Hin as (Hpath & df & Hw & _).
    apply output_file_inj in Hpath. subst name'. rewrite (Hsame _ Hne') in Hw.
    unfold written_table in Hw. cbn [snd] in Hw. rewrite Hft in Hw. discriminate.
Qed.

Lemma empty_response_is_skipped_witness :
  dataframes (snd (run sample_world ∅)) !! "pair" = None
  /\ files (snd (run sample_world ∅)) !! output_file "pair" = None.
Proof.
  destruct (empty_response_is_skipped sample_world ∅ "pair" "pair") as (H1 & H2 & _).
  - apply (bool_decide_unpack _). vm_compute. exact I.
  - reflexivity.
  - split; [exact H1|exact H2].
Defined.

(** ** How a run can end *)

Lemma read_back_total (w : World) (l : list (string * DataFrame)) :
  (forall p, In p l -> read_ok w (fst p) = true) ->
  forall total st, exists t, fst (read_back w l total st) = Ok t.
Proof.
  induction l as [|[f df] l IH]; intros Hok total st; [now exists total|].
  cbn [read_back]. pose proof (Hok (f, df) (or_introl eq_refl)) as Hf. cbn [fst] in Hf.
  rewrite Hf, bind_print. apply IH. intros p Hp. apply Hok. now right.
Qed.

Lemma sorted_files_In (fs : gmap string DataFrame) (p : string * DataFrame) :
  In p (sorted_files fs) -> fs !! fst p = Some (snd p).
Proof.
  intros H. apply list_elem_of_In in H. rewrite sorted_files_perm in H.
  destruct p as [f df]. now apply elem_of_map_to_list in H.
Qed.

Lemma loop_allele (w : World) (fs0 : gmap string DataFrame) :
  dataframes (loop_state w fs0) !! "allele" = fetched_table w "allele".
Proof. apply (proj1 (loop_dataframes w fs0) _ _ allele_in_endpoints). Qed.

(** No failure inside the loop ends a run. *)
Lemma run_ends (w : World) (fs0 : gmap string DataFrame) :
  (forall e, fst (run w fs0) = Raise e ->
     e = ArrowError
     /\ ((exists t, fetched_table w "allele" = Some t
                    /\ parquet_ok w summary_file (allele_projection t) = false)
         \/ (exists f df, files (snd (run w fs0)) !! f = Some df /\ read_ok w f = false)))
  /\ ((forall t, fetched_table w "allele" = Some t ->
         parquet_ok w summary_file (allele_projection t) = true) ->
      (forall f, read_ok w f = true) ->
      fst (run w fs0) = Ok tt).
Proof.
  rewrite run_after_loop.
  destruct (after_loop_effect w (loop_state w fs0)) as [_ Hfiles]. rewrite Hfiles.
  unfold after_loop, bind. rewrite allele_summary_effect, loop_allele.
  set (st0 := loop_state w fs0).
  assert (forall st1 : State,
            let r := (let (r0, st'0) := recommendation_summary st1 in
                      match r0 with
                      | Ok _ => report w st'0
                      | Raise e => (Raise e, st'0)
                      end) in
            (forall e, fst r = Raise e ->
               e = ArrowError
               /\ exists f df, files st1 !! f = Some df /\ read_ok w f = false)
            /\ ((forall f, read_ok w f = true) -> fst r = Ok tt)) as Hrest.
  { intros st1. rewrite recommendation_summary_effect. cbv zeta iota beta.
    set (st2 := match dataframes st1 !! "recommendation" with
                | None => st1 | Some _ => _ end).
    assert (files st2 = files st1) as Hf2
      by (subst st2; now destruct (dataframes st1 !! "recommendation")).
    unfold report. rewrite bind_print. unfold bind. cbn [files]. rewrite Hf2.
    set (st3 := {| dataframes := dataframes st2; files := files st1;
                   log := log st2 ++ [Banner "Output files:"] |}).
    destruct (read_back_log w (sorted_files (files st1)) 0 st3) as (k & _ & _ & Herr).
    split.
    - intros e He.
      destruct (read_back w (sorted_files (files st1)) 0 st3) as [[t|e'] st4];
        [discriminate|].
      cbn [fst] in *. injection He as ->.
      destruct (Herr e eq_refl) as (-> & [f df] & Hin & Hr).
      split; [reflexivity|]. exists f, df. split; [|exact Hr].
      exact (sorted_files_In _ _ Hin).
    - intros Hok.
      destruct (read_back_total w (sorted_files (files st1)) (fun p _ => Hok (fst p)) 0 st3)
        as [t Ht].
      destruct (read_back w (sorted_files (files st1)) 0 st3) as [[t'|e'] st4];
        [reflexivity|discriminate]. }
  destruct (fetched_table w "allele") as [t|] eqn:Eft.
  - destruct (parquet_ok w summary_file (allele_projection t)) eqn:Epq.
    + cbn [snd files]. destruct (Hrest
        {| dataframes := dataframes st0;
           files := <[summary_file := parquet_image (allele_projection t)]> (files st0);
           log := log st0 ++ [Banner "Creating allele function summary...";
                              SavedAlleleSummary (len (allele_projection t))] |})
        as [Hr Ho].
      split; [|intros _; exact Ho].
      intros e He. destruct (Hr e He) as [-> Hex]. split; [reflexivity|now right].
    + cbn [fst snd]. split.
      * intros e [= <-]. split; [reflexivity|]. left. now exists t.
      * intros Hsum _. rewrite (Hsum t eq_refl) in Epq. discriminate.
  - cbn [snd]. destruct (Hrest st0) as [Hr Ho].
    split; [|intros _; exact Ho].
    intros e He. destruct (Hr e He) as [-> Hex]. split; [reflexivity|now right].
Qed.

Lemma main_eq (w : World) (st : State) :
  main w st
  = match mkdir_error w with
    | Some e => (Raise e, st)
    | None => pipeline w st
    end.
Proof. unfold main, mkdir, bind. now destruct (mkdir_error w). Qed.

(** X16: [main] ends with an exception in three cases only: [mkdir]
    raises, and then nothing is fetched, written or printed; the encoder
    rejects the allele summary; a file of the directory cannot be read
    back.  No failure inside the loop ends it.  When the directory can be
    made, the encoder accepts the summary and every file is readable,
    [main] returns. *)
Theorem main_raises_only_outside_the_loop
  (w : World) (fs0 : gmap string DataFrame) :
  (forall e, mkdir_error w = Some e ->
     main w (initial_state fs0) = (Raise e, initial_state fs0))
  /\ (forall e, fst (main w (initial_state fs0)) = Raise e ->
        mkdir_error w = Some e
        \/ (e = ArrowError
            /\ ((exists t, fetched_table w "allele" = Some t
                           /\ parquet_ok w summary_file (allele_projection t) = false)
                \/ (exists f df, files (snd (main w (initial_state fs0))) !! f = Some df
                                 /\ read_ok w f = false))))
  /\ (mkdir_error w = None ->
      (forall t, fetched_table w "allele" = Some t ->
         parquet_ok w summary_file (allele_projection t) = true) ->
      (forall f, read_ok w f = true) ->
      fst (main w (initial_state fs0)) = Ok tt).
Proof.
  rewrite main_eq. destruct (run_ends w fs0) as [Hraise Hok].
  destruct (mkdir_error w) as [e0|].
  - split; [now intros e [= <-]|]. split; [|discriminate].
    intros e [= <-]. now left.
  - split; [discriminate|]. split.
    + intros e He. right. exact (Hraise e He).
    + intros _. exact Hok.
Qed.

Lemma main_raises_only_outside_the_loop_witness :
  fst (main offline_world (initial_state stale_directory)) = Ok tt
  /\ main blocked_world (initial_state stale_directory)
     = (Raise OSError, initial_state stale_directory).
Proof.
  split.
  - apply (proj2 (proj2 (main_raises_only_outside_the_loop offline_world stale_directory))).
    + reflexivity.
    + intros t H. reflexivity.
    + intros f. reflexivity.
  - apply (proj1 (main_raises_only_outside_the_loop blocked_world stale_directory)).
    reflexivity.
Defined.

(** ** The allele summary frame *)

(** X17: the allele summary frame copies columns and computes nothing:
    under each of the seven key labels it holds what the allele table
    holds under that label (a key label the table lacks is skipped, not
    an error), and it has no column under any other label. *)
Theorem allele_projection_copies_key_columns (allele_df : DataFrame) (c : string) :
  getitem (allele_projection allele_df) c
  = if mem c key_cols then getitem allele_df c else NoColumn.
Proof. apply getitem_allele_projection. Qed.

(** ** The report *)

Lemma insert_sorted_Sorted (x : string * DataFrame) (l : list (string * DataFrame)) :
  Sorted name_le l -> Sorted name_le (insert_sorted x l).
Proof.
  induction 1 as [|y l Hl IH Hhd]; [repeat constructor|].
  cbn [insert_sorted]. destruct (String.leb (fst x) (fst y)) eqn:E.
  - constructor; [now constructor|now constructor].
  - constructor; [exact IH|].
    assert (name_le y x) as Hyx.
    { unfold name_le. destruct (String.leb_total (fst x) (fst y)) as [H|H]; congruence. }
    destruct l as [|z l]; cbn [insert_sorted]; [now constructor|].
    destruct (String.leb (fst x) (fst z)); constructor; [exact Hyx|].
    now inversion Hhd.
Qed.

Lemma sorted_files_Sorted (fs : gmap string DataFrame) : Sorted name_le (sorted_files fs).
Proof.
  unfold sorted_files. induction (map_to_list fs) as [|x l IH]; [constructor|].
  cbn [List.fold_right]. now apply insert_sorted_Sorted.
Qed.

Lemma report_log (w : World) (st : State) :
  fst (report w st) = Ok tt ->
  log (snd (report w st))
  = (log st ++ Banner "Output files:" :: List.map file_line (sorted_files (files st))
       ++ [Total (total_rows (files st)) (size (files st))])%list.
Proof.
  unfold report. rewrite bind_print. unfold bind. cbn [files].
  set (st1 := {| dataframes := dataframes st; files := files st;
                 log := log st ++ [Banner "Output files:"] |}).
  destruct (read_back_log w (sorted_files (files st)) 0 st1) as (k & Hlog & Hok & _).
  destruct (read_back_effect w (sorted_files (files st)) 0 st1) as (_ & _ & Ht).
  destruct (read_back w (sorted_files (files st)) 0 st1) as [[t|e] st2]; [|discriminate].
  intros _. cbn [fst snd] in *. unfold print. cbn [snd log].
  rewrite Hlog, (Hok t eq_refl), (Ht t eq_refl). subst st1. cbn [log].
  destruct (sorted_files_total (files st)) as [-> ->].
  now rewrite <- !List.app_assoc.
Qed.

(** X18: a run that ends normally closes its output with the report of
    the directory as it then is: the banner, one line per file with the
    row and column counts of that file, in the order of the file names,
    and the total of the rows and of the files. *)
Theorem report_lists_the_directory (w : World) (fs0 : gmap string DataFrame) :
  fst (run w fs0) = Ok tt ->
  let fs := files (snd (run w fs0)) in
  (exists before,
     log (snd (run w fs0))
     = (before ++ Banner "Output files:" :: List.map file_line (sorted_files fs)
          ++ [Total (total_rows fs) (size fs)])%list)
  /\ Sorted name_le (sorted_files fs)
  /\ (forall f df, In (f, df) (sorted_files fs) <-> fs !! f = Some df).
Proof.
  intros Hok. cbv zeta. split; [|split].
  - revert Hok. rewrite run_after_loop. unfold after_loop, bind.
    destruct (allele_summary w (loop_state w fs0)) as [[[]|e] st1]; [|discriminate].
    rewrite recommendation_summary_effect. cbv iota beta.
    set (st2 := match dataframes st1 !! "recommendation" with
                | None => st1 | Some _ => _ end).
    intros Hok. rewrite (report_log w st2 Hok).
    destruct (report_effect w st2) as (_ & -> & _). now exists (log st2).
  - apply sorted_files_Sorted.
  - intros f df. rewrite <- list_elem_of_In, sorted_files_perm.
    apply elem_of_map_to_list.
Qed.

Lemma report_lists_the_directory_witness :
  exists before,
    log (snd (run sample_world ∅))
    = (before ++ [Banner "Output files:";
                  FileLine "cpic_allele.parquet" 2 5;
                  FileLine "cpic_allele_functions.parquet" 2 4;
                  FileLine "cpic_gene.parquet" 1 2;
                  Total 5 3])%list.
Proof.
  assert (fst (run sample_world ∅) = Ok tt) as Hok by (vm_compute; reflexivity).
  destruct (report_lists_the_directory sample_world ∅ Hok) as [[before H] _].
  exists before. rewrite H. f_equal; vm_compute; reflexivity.
Defined.

(** ** The order of the iterations *)

Lemma filter_fetching_endpoint_log (w : World) (name endpoint : string) :
  List.filter is_fetching (endpoint_log w name endpoint) = [Fetching endpoint].
Proof.
  unfold endpoint_log. cbn [List.filter is_fetching]. f_equal.
  destruct (http_get w endpoint) as [[|r data]|e]; try reflexivity.
  cbn [List.filter is_fetching].
  destruct (normalize (r :: data)) as [df|e]; [|reflexivity].
  now destruct (parquet_ok w (output_file name) df).
Qed.

Lemma filter_fetching_after_loop (tail : list event) :
  List.forallb after_loop_event tail = true -> List.filter is_fetching tail = [].
Proof.
  induction tail as [|e tail IH]; [reflexivity|]. cbn [List.forallb List.filter].
  intros H. apply andb_true_iff in H as [He Ht]. rewrite (IH Ht).
  now destruct e.
Qed.

(** X19: every endpoint is attempted, once and in the order of the
    endpoint table, whatever happens at the endpoints before it: the
    fetching lines of a run are those of the seven endpoints in order. *)
Theorem every_endpoint_is_attempted (w : World) (fs0 : gmap string DataFrame) :
  List.filter is_fetching (log (snd (run w fs0)))
  = List.map (fun ne => Fetching (snd ne)) endpoints.
Proof.
  rewrite run_after_loop.
  destruct (after_loop_log w (loop_state w fs0)) as (tail & -> & Htail).
  rewrite List.filter_app, (filter_fetching_after_loop tail Htail), List.app_nil_r, loop_log.
  cbn [List.filter is_fetching].
  induction endpoints as [|ne l IH]; [reflexivity|].
  cbn [List.map List.concat]. now rewrite List.filter_app, filter_fetching_endpoint_log, IH.
Qed.


